(** * GenAI_Performance_Test: the ramp-up load tester, [main.py]

    A shallow embedding of the load-generation core of [main.py]: the stride
    computation, the [range] that drives the ramp, the step runner with its
    wall-clock window, the wave of concurrent requests, and the statistics
    that the report plots.

    Conventions of the embedding.
    - Python integers are [Z]; [//] is [Z.div] (both round to the floor, for
      every sign of the operands).
    - Python floats are rationals [Q].  Where the rounding of a double
      decides an integer result, the control flow or a claimed value (the
      true division of integers, the test of the window, the percentile of
      the fixed sample, the overflow of a power), the operation is rounded
      to binary64 by [fl]; elsewhere a float holds the exact value.
    - A raised exception is a value of [exn]; a computation that may raise
      returns a [result].
    - Time is a logical monotonic clock in nanoseconds.  It advances only
      while the program awaits (a wave of requests, [asyncio.sleep]); the
      CPU time of the statements in between is taken as zero. *)

From Stdlib Require Import ZArith QArith Qround List Bool Lia Sorted.
Import ListNotations.
Local Open Scope Z_scope.

(** ** Exceptions and results *)

Inductive exn : Type :=
| ZeroDivisionError   (* integer or float division by zero *)
| OverflowError       (* the result of a float operation is too large *)
| ValueError          (* range() arg 3 must not be zero; max() of an empty list *)
| StatisticsError     (* statistics.mean of no data *)
| IndexError          (* numpy indexing an empty sample *)
| RequestError.       (* client.post raised: connection refused, timeout, ... *)

Inductive result (A : Type) : Type :=
| Ok (a : A)
| Raise (e : exn).
Arguments Ok {A} a.
Arguments Raise {A} e.

Definition bind {A B : Type} (r : result A) (k : A -> result B) : result B :=
  match r with
  | Ok a => k a
  | Raise e => Raise e
  end.

Notation "x <- r ;; k" := (bind r (fun x => k))
  (at level 61, r at next level, right associativity).

Fixpoint mapM {A B : Type} (f : A -> result B) (l : list A) : result (list B) :=
  match l with
  | [] => Ok []
  | a :: l' => b <- f a ;; bs <- mapM f l' ;; Ok (b :: bs)
  end.

(** ** Python arithmetic used by the scheduler *)

(** The integer nearest to [N / D], [D > 0]; of two that are equally near,
    the even one. *)
Definition round_half_even (N D : Z) : Z :=
  let q := N / D in
  let r := N mod D in
  if 2 * r <? D then q
  else if D <? 2 * r then q + 1
  else if Z.even q then q else q + 1.

(** Numerator and denominator of [(n / d) / 2 ^ e]. *)
Definition scale_num (n e : Z) : Z := if e <? 0 then n * 2 ^ (- e) else n.
Definition scale_den (d e : Z) : Z := if e <? 0 then d else d * 2 ^ e.

(** The exponent of the unit in the last place of the double nearest to
    [n / d], for positive [n] and [d]: the one that leaves 53 significant
    bits, and not less than that of the subnormal numbers. *)
Definition exponent (n d : Z) : Z :=
  let e0 := Z.log2 n - Z.log2 d - 53 in
  let e1 := if 2 ^ 53 * scale_den d e0 <=? scale_num n e0 then e0 + 1 else e0 in
  Z.max e1 (-1074).

(** The rational [q * 2 ^ e]. *)
Definition dyadic (q e : Z) : Q :=
  if e <? 0 then Qmake q (Z.to_pos (2 ^ (- e))) else inject_Z (q * 2 ^ e).

(** The double nearest to [n / d], for positive [n] and [d], ties to even;
    [None] when it would be 2^1024 or more. *)
Definition round_pos (n d : Z) : option Q :=
  let e := exponent n d in
  let q := round_half_even (scale_num n e) (scale_den d e) in
  if (0 <=? e) && (2 ^ 1024 <=? q * 2 ^ e) then None else Some (dyadic q e).

(** The double nearest to [n / d], [d <> 0]. *)
Definition fl_frac (n d : Z) : option Q :=
  if n =? 0 then Some 0%Q
  else if Z.sgn n =? Z.sgn d then round_pos (Z.abs n) (Z.abs d)
  else option_map Qopp (round_pos (Z.abs n) (Z.abs d)).

(** Rounding of a rational to binary64, nearest and ties to even; [None]
    when the result is not finite. *)
Definition fl (x : Q) : option Q := fl_frac (Qnum x) (QDen x).

(** [a / b] for integers: the correctly rounded quotient; a zero divisor
    raises, and so does a quotient too large for a float. *)
Definition py_true_divide (a b : Z) : result Q :=
  if b =? 0 then Raise ZeroDivisionError
  else match fl_frac a b with
       | None => Raise OverflowError
       | Some v => Ok v
       end.

(** [math.ceil(a / b)] for integers [a], [b]. *)
Definition ceil_div (a b : Z) : result Z :=
  v <- py_true_divide a b ;;
  Ok (Qceiling v).

(** Number of elements of [range(start, stop, step)], [step <> 0]. *)
Definition range_len (start stop step : Z) : Z :=
  if 0 <? step
  then (if start <? stop then (stop - start - 1) / step + 1 else 0)
  else (if stop <? start then (start - stop - 1) / (- step) + 1 else 0).

(** [range(start, stop, step)], as the list a [for] statement iterates. *)
Definition py_range (start stop step : Z) : result (list Z) :=
  if step =? 0 then Raise ValueError
  else Ok (map (fun i => start + Z.of_nat i * step)
               (seq 0 (Z.to_nat (range_len start stop step)))).

(** ** The ramp scheduler: stride and levels *)

(** [calculate_ramp_up_step], main.py lines 13-17. *)
Definition calculate_ramp_up_step (start_requests max_requests duration : Z)
  : result Z :=
  let total_steps := duration / 5 in
  ramp_up_step <- ceil_div (max_requests - start_requests) total_steps ;;
  Ok ramp_up_step.

(** The levels the [for] statement of [main] (line 79) iterates over, with the
    stride computed at line 62. *)
Definition step_plan (start_requests max_requests duration : Z)
  : result (list Z) :=
  ramp_up_step <- calculate_ramp_up_step start_requests max_requests duration ;;
  py_range start_requests (max_requests + 1) ramp_up_step.

Definition valid_config (start_requests max_requests duration : Z) : Prop :=
  0 < start_requests /\ start_requests <= max_requests /\ 0 < duration.

(** ** Rationals standing for Python floats *)

Local Open Scope Q_scope.

Definition Qltb (x y : Q) : bool := negb (Qle_bool y x).

Definition Qsum (l : list Q) : Q := fold_left Qplus l 0.

Fixpoint insert_sorted (x : Q) (l : list Q) : list Q :=
  match l with
  | [] => [x]
  | y :: l' => if Qle_bool x y then x :: l else y :: insert_sorted x l'
  end.

Definition sort (l : list Q) : list Q := fold_right insert_sorted [] l.

(** ** The statistics of a step *)

(** [statistics.mean(data)], called at main.py line 84. *)
Definition statistics_mean (data : list Q) : result Q :=
  match data with
  | [] => Raise StatisticsError
  | _ :: _ => Ok (Qsum data / inject_Z (Z.of_nat (length data)))
  end.

(** [np.percentile(a, q)] with numpy's default method, linear interpolation
    between the two nearest ranks of the sorted sample: the virtual index is
    [(n - 1) * q / 100], and the value lies between the elements below and
    above it.  numpy rejects [q] outside [0, 100]; what it does with an empty
    sample is never reached from [main], and stands here as [IndexError].
    The interpolation is exact here; [np_percentile_f64] below rounds every
    operation as numpy does. *)
Definition np_percentile (a : list Q) (q : Q) : result Q :=
  if Qltb q 0 || Qltb 100 q then Raise ValueError
  else match a with
       | [] => Raise IndexError
       | _ :: _ =>
         let sorted := sort a in
         let n := Z.of_nat (length a) in
         let virtual_index := (inject_Z n - 1) * (q / 100) in
         let lo := Qfloor virtual_index in
         let hi := Z.min (lo + 1) (n - 1) in
         let gamma := virtual_index - inject_Z lo in
         let below := nth (Z.to_nat lo) sorted 0 in
         let above := nth (Z.to_nat hi) sorted 0 in
         Ok (below + gamma * (above - below))
       end.

(** [max(times)]: the first greatest element; raises on an empty list. *)
Definition py_max (times : list Q) : result Q :=
  match times with
  | [] => Raise ValueError
  | x :: rest => Ok (fold_left (fun m y => if Qltb m y then y else m) rest x)
  end.

(** [len(times) / duration_per_step], main.py line 141. *)
Definition throughput (times : list Q) (duration_per_step : Z) : result Q :=
  if (duration_per_step =? 0)%Z then Raise ZeroDivisionError
  else Ok (inject_Z (Z.of_nat (length times)) / inject_Z duration_per_step).

(** ** The statistics as computed in binary64 *)

(** [statistics.mean(data)] on floats: the exact mean, converted to a float
    at the end. *)
Definition statistics_mean_f64 (data : list Q) : result Q :=
  match data with
  | [] => Raise StatisticsError
  | _ :: _ =>
    match fl (Qsum data / inject_Z (Z.of_nat (length data))) with
    | None => Raise OverflowError
    | Some v => Ok v
    end
  end.

Definition option_bind {A B : Type} (o : option A) (k : A -> option B)
  : option B :=
  match o with
  | Some a => k a
  | None => None
  end.

(** numpy's linear interpolation of [a] and [b] at [t], every operation
    rounded: [a + (b - a) * t], replaced by [b - (b - a) * (1 - t)] when
    [t >= 0.5]. *)
Definition lerp_f64 (a b t : Q) : option Q :=
  option_bind (fl (b - a)) (fun diff_b_a =>
  option_bind (fl (diff_b_a * t)) (fun up =>
  option_bind (fl (a + up)) (fun lerp_interpolation =>
  if Qle_bool (1 # 2) t
  then option_bind (fl (1 - t)) (fun one_minus_t =>
       option_bind (fl (diff_b_a * one_minus_t)) (fun down =>
       fl (b - down)))
  else Some lerp_interpolation))).

(** [np.percentile(a, q)] with the default method, every operation rounded
    as numpy carries it out on doubles: the quantile [q / 100], the virtual
    index [(n - 1) * quantile], its fractional part, the interpolation.  A
    result that is not finite is not a rational and stands as [None]. *)
Definition np_percentile_f64 (a : list Q) (q : Q) : result (option Q) :=
  if Qltb q 0 || Qltb 100 q then Raise ValueError
  else match a with
       | [] => Raise IndexError
       | _ :: _ =>
         let sorted := sort a in
         let n := Z.of_nat (length a) in
         Ok (option_bind (fl (q / 100)) (fun quantile =>
             option_bind (fl (inject_Z (n - 1) * quantile))
               (fun virtual_index =>
             let lo := Qfloor virtual_index in
             let hi := Z.min (lo + 1) (n - 1) in
             option_bind (fl (virtual_index - inject_Z lo)) (fun gamma =>
             lerp_f64 (nth (Z.to_nat lo) sorted 0)
                      (nth (Z.to_nat hi) sorted 0) gamma))))
       end.

(** [len(times) / duration_per_step], a true division of integers. *)
Definition throughput_f64 (times : list Q) (duration_per_step : Z)
  : result Q :=
  py_true_divide (Z.of_nat (length times)) duration_per_step.

(** ** The request executor and the wave *)

(** What the endpoint does with one request: [Response d] is a response
    (of any status: [client.post] does not raise on a status code) received
    after [d] nanoseconds, [Failure d] is [client.post] raising after [d]
    nanoseconds.  A round trip takes at least one nanosecond. *)
Inductive outcome : Type :=
| Response (ns : positive)
| Failure (ns : positive).

(** The endpoint, as seen by the tester: the fate of the [i]-th request of
    the wave launched at time [t]. *)
Definition server : Type := Z -> nat -> outcome.

(** [send_request], main.py lines 20-26, started at time [now]: its value or
    exception, and the time at which the coroutine finishes. *)
Definition send_request (srv : server) (now : Z) (i : nat) : result Q * Z :=
  let start_time := now in
  match srv now i with
  | Response d =>
    let end_time := (now + Z.pos d)%Z in
    let process_time_ms := Qmake (end_time - start_time) 1000000 in
    (Ok process_time_ms, end_time)
  | Failure d => (Raise RequestError, (now + Z.pos d)%Z)
  end.

(** The earliest exception among the tasks of a wave, with its time; of two
    raised at the same time, the one launched first. *)
Fixpoint first_raise (tasks : list (result Q * Z)) : option (exn * Z) :=
  match tasks with
  | [] => None
  | (Ok _, _) :: rest => first_raise rest
  | (Raise e, t) :: rest =>
    match first_raise rest with
    | Some (e', t') => if (t' <? t)%Z then Some (e', t') else Some (e, t)
    | None => Some (e, t)
    end
  end.

(** The values of the tasks that returned, in launch order. *)
Fixpoint returned (tasks : list (result Q * Z)) : list Q :=
  match tasks with
  | [] => []
  | (Ok x, _) :: rest => x :: returned rest
  | (Raise _, _) :: rest => returned rest
  end.

(** The time at which the last of the tasks finishes. *)
Definition finish_time (now : Z) (tasks : list (result Q * Z)) : Z :=
  fold_right (fun task t => Z.max (snd task) t) now tasks.

(** [await asyncio.gather] on the tasks, without [return_exceptions]: the first
    exception raised by a task is propagated at once, while the other tasks
    are still in flight; otherwise the results of all tasks, in launch
    order, once the last one has finished. *)
Definition gather (now : Z) (tasks : list (result Q * Z))
  : result (list Q) * Z :=
  match first_raise tasks with
  | Some (e, t) => (Raise e, t)
  | None => (Ok (returned tasks), finish_time now tasks)
  end.

(** The tasks of one wave, main.py line 35. *)
Definition wave_tasks (srv : server) (now : Z) (num_requests : Z)
  : list (result Q * Z) :=
  map (send_request srv now) (seq 0 (Z.to_nat num_requests)).

(** One wave, main.py lines 35-36. *)
Definition wave (srv : server) (now : Z) (num_requests : Z)
  : result (list Q) * Z :=
  gather now (wave_tasks srv now num_requests).

(** ** The step runner *)

(** The loop of [ramp_up_requests], main.py lines 34-38, entered at time
    [now] with the latencies collected so far.  The test compares the
    elapsed seconds, a quotient, with the window; the quotient is exact
    here, and [ramp_up_loop_f64] below rounds it as the interpreter does,
    which decides the test the same way while fewer than 2^53 nanoseconds
    have elapsed.  [None] is the loop still
    running when the fuel is spent: every wave of at least one request takes
    time, so that fuel for the nanoseconds of the window is enough; with no
    request per wave nothing is awaited, the source spins until the window
    has passed, and the logical clock, which ignores CPU time, never gets
    there. *)
Fixpoint ramp_up_loop (fuel : nat) (srv : server) (num_requests duration : Z)
    (start_time now : Z) (process_times : list Q)
  : option (result (list Q) * Z) :=
  match fuel with
  | O => None
  | S fuel' =>
    if Qltb (Qmake (now - start_time) 1000000000) (inject_Z duration)
    then match wave srv now num_requests with
         | (Ok response_times, now') =>
           ramp_up_loop fuel' srv num_requests duration start_time now'
                        (process_times ++ response_times)
         | (Raise e, now') => Some (Raise e, now')
         end
    else Some (Ok process_times, now)
  end.

(** [ramp_up_requests], main.py lines 29-38, called at time [now]. *)
Definition ramp_up_requests (fuel : nat) (srv : server) (now : Z)
    (num_requests duration : Z) : option (result (list Q) * Z) :=
  let start_time := now in
  ramp_up_loop fuel srv num_requests duration start_time now [].

(** Fuel that is enough for a window of [duration] seconds when every wave
    takes time: one check per nanosecond of the window, and the last one. *)
Definition enough_fuel (duration : Z) : nat :=
  S (Z.to_nat (duration * 1000000000)).

(** The test at the head of the loop as the interpreter evaluates it,
    main.py line 34: the true division of two integers, rounded, compared
    with the integer window. *)
Definition window_open_f64 (start_time now duration : Z) : result bool :=
  elapsed <- py_true_divide (now - start_time) 1000000000 ;;
  Ok (Qltb elapsed (inject_Z duration)).

(** The loop of [ramp_up_requests] with that test. *)
Fixpoint ramp_up_loop_f64 (fuel : nat) (srv : server)
    (num_requests duration : Z) (start_time now : Z) (process_times : list Q)
  : option (result (list Q) * Z) :=
  match fuel with
  | O => None
  | S fuel' =>
    match window_open_f64 start_time now duration with
    | Raise e => Some (Raise e, now)
    | Ok true =>
      match wave srv now num_requests with
      | (Ok response_times, now') =>
        ramp_up_loop_f64 fuel' srv num_requests duration start_time now'
                         (process_times ++ response_times)
      | (Raise e, now') => Some (Raise e, now')
      end
    | Ok false => Some (Ok process_times, now)
    end
  end.

Definition ramp_up_requests_f64 (fuel : nat) (srv : server) (now : Z)
    (num_requests duration : Z) : option (result (list Q) * Z) :=
  let start_time := now in
  ramp_up_loop_f64 fuel srv num_requests duration start_time now [].

(** ** The scheduler loop and the report series *)

Record series : Type := {
  average_response_times : list Q;
  concurrent_users : list Z;
  all_process_times : list (list Q)
}.

Definition no_series : series :=
  {| average_response_times := []; concurrent_users := [];
     all_process_times := [] |}.

(** The part of the loop body of [main] that records a step,
    main.py lines 83-88. *)
Definition record_step (num_requests : Z) (process_times : list Q)
    (st : series) : result series :=
  match process_times with
  | [] => Ok st
  | _ :: _ =>
    avg_response_time <- statistics_mean process_times ;;
    Ok {| average_response_times :=
            average_response_times st ++ [avg_response_time];
          concurrent_users := concurrent_users st ++ [num_requests];
          all_process_times := all_process_times st ++ [process_times] |}
  end.

(** The recording of a sequence of steps, each given by its level and the
    latencies its runner returned. *)
Fixpoint record_steps (steps : list (Z * list Q)) (st : series)
  : result series :=
  match steps with
  | [] => Ok st
  | (num_requests, process_times) :: rest =>
    st' <- record_step num_requests process_times st ;;
    record_steps rest st'
  end.

Definition duration_per_step : Z := 5.

(** The [for] loop of [main], main.py lines 79-91, over the levels still to
    run. *)
Fixpoint main_loop (fuel : nat) (srv : server) (levels : list Z)
    (st : series) (now : Z) : option (result series * Z) :=
  match levels with
  | [] => Some (Ok st, now)
  | num_requests :: rest =>
    match ramp_up_requests fuel srv now num_requests duration_per_step with
    | None => None
    | Some (Raise e, t) => Some (Raise e, t)
    | Some (Ok process_times, t) =>
      match record_step num_requests process_times st with
      | Raise e => Some (Raise e, t)
      | Ok st' => main_loop fuel srv rest st' (t + 1000000000)%Z
      end
    end
  end.

(** The series handed to the plots by [save_plots_to_html],
    main.py lines 98-147. *)
Record plots : Type := {
  x_users : list Z;
  y_average : list Q;
  y_percentiles : list Q;
  y_max_times : list Q;
  histograms : list (Z * list Q);
  y_throughputs : list Q
}.

Definition save_plots_to_html (users : list Z) (averages : list Q)
    (all_times : list (list Q)) (per_step : Z) : result plots :=
  percentiles <- mapM (fun times => np_percentile times 95) all_times ;;
  max_times <- mapM py_max all_times ;;
  throughputs <- mapM (fun times => throughput times per_step) all_times ;;
  Ok {| x_users := users; y_average := averages;
        y_percentiles := percentiles; y_max_times := max_times;
        histograms := combine users all_times;
        y_throughputs := throughputs |}.

(** [main], main.py lines 41-95, from the parsed arguments on. *)
Definition main (fuel : nat) (srv : server) (now : Z)
    (start_requests max_requests duration : Z) : option (result plots * Z) :=
  match step_plan start_requests max_requests duration with
  | Raise e => Some (Raise e, now)
  | Ok levels =>
    match main_loop fuel srv levels no_series now with
    | None => None
    | Some (Raise e, t) => Some (Raise e, t)
    | Some (Ok st, t) =>
      Some (save_plots_to_html (concurrent_users st)
              (average_response_times st) (all_process_times st)
              duration_per_step, t)
    end
  end.

Local Close Scope Q_scope.

(** The stride as the specification words it: the number of steps with a
    minimum of 1, then the ceiling of the quotient. *)
Definition spec_total_steps (duration : Z) : Z := Z.max 1 (duration / 5).

Definition spec_stride (start_requests max_requests duration : Z) : Z :=
  - ((- (max_requests - start_requests)) / spec_total_steps duration).

(** A step has samples when its latency list is not empty: the test
    [if process_times:] of main.py line 83. *)
Definition has_samples (step : Z * list Q) : bool :=
  match snd step with
  | [] => false
  | _ :: _ => true
  end.

(** Every request of the wave launched at time [now] gets a response. *)
Definition responds (srv : server) (now : Z) (num_requests : Z) : Prop :=
  forall i, (i < Z.to_nat num_requests)%nat -> exists d, srv now i = Response d.

(** Some request of the wave launched at time [now] fails. *)
Definition fails (srv : server) (now : Z) (num_requests : Z) : Prop :=
  exists i d, (i < Z.to_nat num_requests)%nat /\ srv now i = Failure d.

(** The window of [seconds] seconds, in nanoseconds. *)
Definition window_ns (seconds : Z) : Z := seconds * 1000000000.

(** The report of a run that recorded no step. *)
Definition empty_plots : plots :=
  {| x_users := []; y_average := []; y_percentiles := []; y_max_times := [];
     histograms := []; y_throughputs := [] |}.

(** ** Inputs used in the examples *)

(** Five latencies, in milliseconds. *)
Definition sample : list Q := [10; 20; 30; 40; 100]%Q.

(** An endpoint that answers every request in 7 seconds. *)
Definition slow_server : server := fun _ _ => Response 7000000000.

(** An endpoint that answers in 2 seconds and a little more for each further
    request of the wave. *)
Definition steady_server : server :=
  fun _ i => Response (2000000000 + Pos.of_nat i).


(** An endpoint that answers in 5 nanoseconds, but refuses the second request
    of every wave after 3 nanoseconds. *)
Definition flaky_server : server :=
  fun _ i => if Nat.eqb i 1 then Failure 3 else Response 5.

(** ** The name of the report and its title *)

From Stdlib Require String Ascii DecimalString.

Module Title.

Import String Ascii.
Local Open Scope string_scope.

(** [str(n)] for an integer, as an f-string formats it. *)
Definition str (n : Z) : string :=
  DecimalString.NilZero.string_of_int (Z.to_int n).

(** Scanning for [old] from the left: [skip] characters of a match are
    still to be passed over. *)
Fixpoint replace_from (old new : string) (skip : nat) (s : string) : string :=
  match s with
  | EmptyString => EmptyString
  | String c rest =>
    match skip with
    | S k => replace_from old new k rest
    | O =>
      if prefix old s
      then new ++ replace_from old new (length old - 1) rest
      else String c (replace_from old new O rest)
    end
  end.

(** [new] before every character and at the end: what Python does for an
    empty [old]. *)
Fixpoint interleave (new s : string) : string :=
  match s with
  | EmptyString => new
  | String c rest => new ++ String c (interleave new rest)
  end.

(** [s.replace(old, new)]: every occurrence of [old], found from the left
    and without overlap, becomes [new]. *)
Definition py_replace (old new s : string) : string :=
  match old with
  | EmptyString => interleave new s
  | String _ _ => replace_from old new 0 s
  end.

(** The name of the report, main.py lines 66-69: the argument when it is
    given and not empty, otherwise a name made of the three numbers. *)
Definition output_file (arg : option string)
    (start_requests max_requests duration : Z) : string :=
  match arg with
  | Some (String c rest) => String c rest
  | _ =>
    "Load_Test_" ++ str start_requests ++ "_" ++ str max_requests ++ "_"
    ++ str duration ++ "sec.html"
  end.

(** The title of the report, main.py line 72. *)
Definition html_title (output_file : string) : string :=
  py_replace ".html" "" output_file.

(** [old] occurs in [s]. *)
Fixpoint occurs (old s : string) : bool :=
  prefix old s ||
  match s with
  | EmptyString => false
  | String _ rest => occurs old rest
  end.

(** The character [c] occurs in [s]. *)
Fixpoint has_char (c : ascii) (s : string) : bool :=
  match s with
  | EmptyString => false
  | String c' rest => Ascii.eqb c c' || has_char c rest
  end.

End Title.

(** ** The demonstration service, server.py *)

Module PowerRequest.
Record t : Type := { number : Q; power : Z }.
End PowerRequest.

Module SquareRequest.
Record t : Type := { number : Q }.
End SquareRequest.

Module Server.

Import String Ascii.
Local Open Scope string_scope.

(** A JSON object with numbers as values. *)
Definition response : Type := list (string * Q).

(** The clock read by [time.time()], in seconds, and the response times
    written to the log, oldest first. *)
Record world : Type := { clock : Q; logged : list Q }.

(** An endpoint: from its payload to its response or exception, in a
    world. *)
Definition endpoint (A : Type) : Type := A -> world -> result response * world.

(** The decorator [log_response_time], server.py lines 15-23. *)
Definition log_response_time {A : Type} (func : endpoint A) : endpoint A :=
  fun args w =>
    let start_time := clock w in
    match func args w with
    | (Raise e, w') => (Raise e, w')
    | (Ok _, w') =>
      let process_time := (clock w' - start_time)%Q in
      (Ok [("process_time", process_time)],
       {| clock := clock w'; logged := logged w' ++ [process_time] |})
    end.

(** [x ** n] for a float [x] and an integer [n].  The exponent is converted
    to a float first, which raises when it is too large for one; then zero
    to a negative power raises; then the power is computed, rounded, and
    raises when it is too large for a float. *)
Definition float_pow (x : Q) (n : Z) : result Q :=
  match fl (inject_Z n) with
  | None => Raise OverflowError
  | Some _ =>
    if Qeq_bool x 0 && (n <? 0)%Z then Raise ZeroDivisionError
    else match fl (Qpower x n) with
         | None => Raise OverflowError
         | Some v => Ok v
         end
  end.

Section Endpoints.

(** The seconds that the body of an endpoint takes when it starts at a given
    time. *)
Variable busy : Q -> Q.

Definition after_work (w : world) : world :=
  {| clock := (clock w + busy (clock w))%Q; logged := logged w |}.

(** The body of [calculate_power], server.py lines 37-39. *)
Definition calculate_power_body : endpoint PowerRequest.t :=
  fun payload w =>
    match float_pow (PowerRequest.number payload)
                    (PowerRequest.power payload) with
    | Ok r => (Ok [("result", r)], after_work w)
    | Raise e => (Raise e, after_work w)
    end.

(** The body of [calculate_square], server.py lines 44-46. *)
Definition calculate_square_body : endpoint SquareRequest.t :=
  fun payload w =>
    match float_pow (SquareRequest.number payload) 2 with
    | Ok r => (Ok [("result", r)], after_work w)
    | Raise e => (Raise e, after_work w)
    end.

(** The endpoints as served, under the decorator. *)
Definition calculate_power : endpoint PowerRequest.t :=
  log_response_time calculate_power_body.

Definition calculate_square : endpoint SquareRequest.t :=
  log_response_time calculate_square_body.

End Endpoints.

End Server.

(** ** Further notions used in the properties *)

(** Every request, whenever sent, gets a response after at least [lo] and at
    most [hi] nanoseconds. *)
Definition answers_within (srv : server) (lo hi : Z) : Prop :=
  forall t i, exists d, srv t i = Response d /\ lo <= Z.pos d <= hi.


(** * Properties *)

(** ** Rounding to binary64 *)

Lemma round_half_even_spec N D :
  0 < D ->
  exists f r,
    N = f * D + r /\ 0 <= r < D /\
    ((round_half_even N D = f /\ 2 * r <= D) \/
     (round_half_even N D = f + 1 /\ D <= 2 * r)).
Proof.
  intros HD. exists (N / D), (N mod D).
  pose proof (Z.div_mod N D ltac:(lia)) as Hdm.
  pose proof (Z.mod_pos_bound N D HD) as Hm.
  split; [lia |]. split; [exact Hm |].
  unfold round_half_even.
  destruct (Z.ltb_spec (2 * (N mod D)) D); [left; lia |].
  destruct (Z.ltb_spec D (2 * (N mod D))); [right; lia |].
  destruct (Z.even (N / D)); [left | right]; lia.
Qed.

Lemma scale_nonpos n d e :
  e <= 0 -> scale_num n e = n * 2 ^ (- e) /\ scale_den d e = d.
Proof.
  intros He. unfold scale_num, scale_den.
  destruct (Z.ltb_spec e 0); [split; reflexivity |].
  assert (e = 0) by lia. subst e. simpl. split; lia.
Qed.

Lemma dyadic_floor_ceiling q e :
  e <= 0 ->
  Qfloor (dyadic q e) = q / 2 ^ (- e) /\
  Qceiling (dyadic q e) = - ((- q) / 2 ^ (- e)).
Proof.
  intros He. unfold dyadic.
  assert (HP : 0 < 2 ^ (- e)) by (apply Z.pow_pos_nonneg; lia).
  destruct (Z.ltb_spec e 0).
  - unfold Qceiling, Qfloor, Qopp. simpl Qnum. simpl Qden.
    rewrite Z2Pos.id by exact HP. split; reflexivity.
  - assert (e = 0) by lia. subst e. simpl (- 0). rewrite Z.pow_0_r.
    unfold Qceiling. rewrite <- inject_Z_opp, !Qfloor_Z, !Z.div_1_r. lia.
Qed.

(** For operands below 2^53 the unit in the last place is at most 1, and
    twice its inverse exceeds the divisor. *)
Lemma exponent_small a b :
  0 < a < 2 ^ 53 -> 0 < b < 2 ^ 53 ->
  exponent a b <= 0 /\ b < 2 * 2 ^ (- exponent a b).
Proof.
  intros Ha Hb.
  assert (Hla : 0 <= Z.log2 a < 53).
  { split; [apply Z.log2_nonneg | apply Z.log2_lt_pow2; lia]. }
  assert (Hlb : 0 <= Z.log2 b < 53).
  { split; [apply Z.log2_nonneg | apply Z.log2_lt_pow2; lia]. }
  pose proof (Z.log2_spec b ltac:(lia)) as Hspec.
  assert (He : exponent a b <= - Z.log2 b).
  { unfold exponent.
    destruct (2 ^ 53 * scale_den b (Z.log2 a - Z.log2 b - 53)
              <=? scale_num a (Z.log2 a - Z.log2 b - 53)); lia. }
  split; [lia |].
  assert (Hmono : 2 ^ (Z.succ (Z.log2 b)) <= 2 ^ (Z.succ (- exponent a b)))
    by (apply Z.pow_le_mono_r; lia).
  rewrite (Z.pow_succ_r 2 (- exponent a b)) in Hmono by lia. lia.
Qed.

(** The quotient of two positive integers below 2^53, once rounded, still
    has the floor and the ceiling of the exact quotient. *)
Lemma round_pos_small a b :
  0 < a < 2 ^ 53 -> 0 < b < 2 ^ 53 ->
  exists v,
    round_pos a b = Some v /\
    Qfloor v = a / b /\
    Qceiling v = - ((- a) / b).
Proof.
  intros Ha Hb.
  destruct (exponent_small a b Ha Hb) as [He Hlt].
  set (e := exponent a b) in *.
  set (P := 2 ^ (- e)) in *.
  assert (HP : 0 < P) by (apply Z.pow_pos_nonneg; lia).
  destruct (scale_nonpos a b e He) as [Hnum Hden]. fold P in Hnum.
  destruct (round_half_even_spec (a * P) b ltac:(lia))
    as [f [r [Hdiv [Hr Hq]]]].
  set (q := round_half_even (a * P) b) in *.
  pose proof (Z.div_mod a b ltac:(lia)) as Hfl.
  pose proof (Z.mod_pos_bound a b ltac:(lia)) as Hflr.
  pose proof (Z.div_mod (- a) b ltac:(lia)) as Hce.
  pose proof (Z.mod_pos_bound (- a) b ltac:(lia)) as Hcer.
  set (k' := a / b) in *. set (k := - (- a / b)) in *.
  assert (Hk : (k - 1) * b < a <= k * b) by (unfold k; nia).
  assert (Hk' : k' * b <= a < (k' + 1) * b) by nia.
  assert (Hfloor : k' * P <= q < (k' + 1) * P).
  { split.
    - assert (k' * P <= f) by nia. lia.
    - assert (f < (k' + 1) * P) by nia.
      destruct Hq as [[-> _] | [-> Hup]]; [lia |].
      assert (f <> (k' + 1) * P - 1); [| lia].
      intros Heq. subst f. nia. }
  assert (Hceil : (k - 1) * P < q <= k * P).
  { split.
    - assert ((k - 1) * P <= f) by nia.
      destruct Hq as [[-> Hdown] | [-> _]]; [| lia].
      assert (f <> (k - 1) * P); [| lia].
      intros Heq. subst f. nia.
    - assert (f <= k * P) by nia.
      destruct Hq as [[-> _] | [-> Hup]]; [lia |].
      assert (f <> k * P); [| lia].
      intros Heq. subst f. nia. }
  exists (dyadic q e).
  destruct (dyadic_floor_ceiling q e He) as [Hdf Hdc]. fold P in Hdf, Hdc.
  split; [| split].
  - unfold round_pos. fold e. rewrite Hnum, Hden. fold q.
    destruct (Z.leb_spec 0 e); [| reflexivity].
    assert (e = 0) by lia.
    assert (HP1 : P = 1)
      by (unfold P; replace (- e) with 0 by lia; reflexivity).
    replace (2 ^ e) with 1 by (replace e with 0 by lia; reflexivity).
    assert (q < 2 ^ 1024).
    { assert (k <= a) by nia.
      assert (2 ^ 53 <= 2 ^ 1024) by (apply Z.pow_le_mono_r; lia). nia. }
    destruct (Z.leb_spec (2 ^ 1024) (q * 1)); [lia | reflexivity].
  - rewrite Hdf. symmetry. apply (Z.div_unique_pos q P k' (q - k' * P)); lia.
  - rewrite Hdc.
    assert (Hx : - q / P = - k).
    { symmetry. apply (Z.div_unique_pos (- q) P (- k) (k * P - q)); lia. }
    rewrite Hx. unfold k. lia.
Qed.

Lemma Qfloor_opp (v : Q) : Qfloor (- v) = - Qceiling v.
Proof. unfold Qceiling. lia. Qed.

Lemma Qceiling_opp (v : Q) : Qceiling (- v) = - Qfloor v.
Proof.
  unfold Qceiling. f_equal. apply Qfloor_comp. apply Qopp_involutive.
Qed.

(** The same for integers of either sign. *)
Lemma fl_frac_small a b :
  b <> 0 -> Z.abs a < 2 ^ 53 -> Z.abs b < 2 ^ 53 ->
  exists v,
    fl_frac a b = Some v /\
    Qfloor v = a / b /\
    Qceiling v = - ((- a) / b).
Proof.
  intros Hb Ha Hbb. unfold fl_frac.
  destruct (Z.eqb_spec a 0) as [-> | Hnz].
  - exists 0%Q. split; [reflexivity |].
    rewrite Z.div_0_l by exact Hb. simpl (- 0). rewrite Z.div_0_l by exact Hb.
    split; reflexivity.
  - destruct (round_pos_small (Z.abs a) (Z.abs b) ltac:(lia) ltac:(lia))
      as [v [Hv [Hfloor Hceil]]].
    rewrite Hv.
    destruct (Z.eqb_spec (Z.sgn a) (Z.sgn b)) as [Hs | Hs].
    + exists v. split; [reflexivity |]. rewrite Hfloor, Hceil.
      destruct (Z.abs_spec a) as [[Hap ->] | [Han ->]];
        destruct (Z.abs_spec b) as [[Hbp ->] | [Hbn ->]];
        try (exfalso; lia).
      * split; reflexivity.
      * rewrite Z.div_opp_opp by lia. rewrite Z.opp_involutive.
        rewrite <- (Z.div_opp_opp (- a) b) by lia.
        rewrite Z.opp_involutive. split; reflexivity.
    + exists (- v)%Q. split; [reflexivity |].
      rewrite Qfloor_opp, Qceiling_opp, Hfloor, Hceil.
      destruct (Z.abs_spec a) as [[Hap ->] | [Han ->]];
        destruct (Z.abs_spec b) as [[Hbp ->] | [Hbn ->]];
        try (exfalso; lia).
      * rewrite <- (Z.div_opp_opp a b) by lia.
        rewrite <- (Z.div_opp_opp (- a) b) by lia.
        rewrite !Z.opp_involutive. split; reflexivity.
      * rewrite !Z.opp_involutive. split; reflexivity.
Qed.

(** ** Arithmetic of the stride *)

(** For operands below 2^53 in absolute value, the ceiling of the rounded
    quotient is that of the exact one. *)
Lemma ceil_div_exact a b :
  b <> 0 -> Z.abs a < 2 ^ 53 -> Z.abs b < 2 ^ 53 ->
  ceil_div a b = Ok (- ((- a) / b)).
Proof.
  intros Hb Ha Hbb. unfold ceil_div, py_true_divide.
  destruct (Z.eqb_spec b 0) as [E | _]; [contradiction |].
  destruct (fl_frac_small a b Hb Ha Hbb) as [v [-> [_ Hceil]]].
  cbn [bind]. rewrite Hceil. reflexivity.
Qed.

Lemma ceil_div_pos a b :
  0 < b < 2 ^ 53 -> Z.abs a < 2 ^ 53 ->
  exists k, ceil_div a b = Ok k /\ (k - 1) * b < a <= k * b.
Proof.
  intros Hb Ha. rewrite ceil_div_exact by lia.
  eexists; split; [reflexivity |].
  pose proof (Z.div_mod (- a) b ltac:(lia)) as Hdm.
  pose proof (Z.mod_pos_bound (- a) b ltac:(lia)) as Hm.
  nia.
Qed.

Lemma ceil_div_neg a b :
  - 2 ^ 53 < b < 0 -> Z.abs a < 2 ^ 53 ->
  exists k, ceil_div a b = Ok k /\ k * b <= a < (k - 1) * b.
Proof.
  intros Hb Ha. rewrite ceil_div_exact by lia.
  eexists; split; [reflexivity |].
  pose proof (Z.div_mod (- a) b ltac:(lia)) as Hdm.
  pose proof (Z.mod_neg_bound (- a) b ltac:(lia)) as Hm.
  nia.
Qed.

(** Beyond 2^53 the rounding shows: the quotient of 2^53 + 1 by 1 loses its
    last bit, a quotient below the least double is 0, one beyond the
    greatest raises, and a quotient just above -1 is -1. *)
Lemma rounded_stride_examples :
  calculate_ramp_up_step 0 (2 ^ 53 + 1) 5 = Ok (2 ^ 53) /\
  calculate_ramp_up_step 1 2 (5 * 10 ^ 400) = Ok 0 /\
  calculate_ramp_up_step 0 (10 ^ 400) (- 3) = Raise OverflowError /\
  calculate_ramp_up_step (2 ^ 60 + 1) 0 (5 * (2 ^ 60 + 2)) = Ok (- 1).
Proof. repeat split; vm_compute; reflexivity. Qed.

Lemma total_steps_pos d : 5 <= d -> 1 <= d / 5.
Proof. intros H. apply Z.div_le_lower_bound; lia. Qed.

Lemma total_steps_zero d : 0 <= d < 5 -> d / 5 = 0.
Proof. intros H. apply Z.div_small; lia. Qed.

Lemma total_steps_neg d : d < 0 -> d / 5 < 0.
Proof. intros H. apply Z.div_lt_upper_bound; lia. Qed.

Lemma calculate_ramp_up_step_short s m d :
  0 <= d < 5 -> calculate_ramp_up_step s m d = Raise ZeroDivisionError.
Proof.
  intros H. unfold calculate_ramp_up_step, ceil_div, py_true_divide.
  rewrite (total_steps_zero d H). reflexivity.
Qed.

(** ** Python's range *)

Lemma affine_seq_sorted start step n k :
  0 < step ->
  StronglySorted Z.lt
    (map (fun i => start + Z.of_nat i * step) (seq k n)).
Proof.
  intros Hstep. revert k.
  induction n as [| n IH]; intros k; simpl.
  - constructor.
  - constructor; [apply IH |].
    apply Forall_forall. intros x Hx.
    apply in_map_iff in Hx. destruct Hx as [i [<- Hi]].
    apply in_seq in Hi. nia.
Qed.

Lemma last_affine_seq start step n k dflt :
  last (map (fun i => start + Z.of_nat i * step) (seq k (S n))) dflt
  = start + Z.of_nat (k + n) * step.
Proof.
  revert k. induction n as [| n IH]; intros k.
  - simpl. rewrite Nat.add_0_r. reflexivity.
  - change (seq k (S (S n))) with (k :: seq (S k) (S n)).
    rewrite map_cons.
    remember (map (fun i => start + Z.of_nat i * step) (seq (S k) (S n)))
      as tl eqn:Htl.
    destruct tl as [| y tl'].
    + simpl in Htl. discriminate.
    + change (last ((start + Z.of_nat k * step) :: y :: tl') dflt)
        with (last (y :: tl') dflt).
      rewrite Htl, IH. f_equal. f_equal. lia.
Qed.

Lemma range_len_up start stop step :
  0 < step -> start < stop ->
  range_len start stop step = (stop - start - 1) / step + 1.
Proof.
  intros Hs Hlt. unfold range_len.
  destruct (Z.ltb_spec 0 step); [| lia].
  destruct (Z.ltb_spec start stop); [reflexivity | lia].
Qed.

Lemma range_len_empty_up start stop step :
  0 < step -> stop <= start -> range_len start stop step = 0.
Proof.
  intros Hs Hle. unfold range_len.
  destruct (Z.ltb_spec 0 step); [| lia].
  destruct (Z.ltb_spec start stop); [lia | reflexivity].
Qed.

Lemma range_len_empty_down start stop step :
  step < 0 -> start <= stop -> range_len start stop step = 0.
Proof.
  intros Hs Hle. unfold range_len.
  destruct (Z.ltb_spec 0 step); [lia |].
  destruct (Z.ltb_spec stop start); [lia | reflexivity].
Qed.

Lemma py_range_empty start stop step :
  step <> 0 -> range_len start stop step = 0 ->
  py_range start stop step = Ok [].
Proof.
  intros Hs Hlen. unfold py_range.
  destruct (Z.eqb_spec step 0); [contradiction |].
  rewrite Hlen. reflexivity.
Qed.

(** An ascending range that is not empty: its head, its order and its last
    element, the greatest [start + k * step] below [stop]. *)
Lemma py_range_up start stop step :
  0 < step -> start < stop ->
  exists rest,
    py_range start stop step = Ok (start :: rest) /\
    StronglySorted Z.lt (start :: rest) /\
    last (start :: rest) start < stop /\
    stop <= last (start :: rest) start + step.
Proof.
  intros Hs Hlt. unfold py_range.
  destruct (Z.eqb_spec step 0); [lia |].
  rewrite (range_len_up _ _ _ Hs Hlt).
  set (q := (stop - start - 1) / step).
  assert (Hq : 0 <= q) by (apply Z.div_pos; lia).
  pose proof (Z.div_mod (stop - start - 1) step ltac:(lia)) as Hdm.
  pose proof (Z.mod_pos_bound (stop - start - 1) step Hs) as Hm.
  fold q in Hdm.
  replace (Z.to_nat (q + 1)) with (S (Z.to_nat q)) by lia.
  exists (map (fun i => start + Z.of_nat i * step) (seq 1 (Z.to_nat q))).
  assert (Hhead :
    map (fun i => start + Z.of_nat i * step) (seq 0 (S (Z.to_nat q)))
    = start :: map (fun i => start + Z.of_nat i * step) (seq 1 (Z.to_nat q))).
  { simpl. f_equal. lia. }
  split; [rewrite Hhead; reflexivity |].
  rewrite <- Hhead.
  split; [apply affine_seq_sorted; exact Hs |].
  rewrite last_affine_seq. simpl (0 + Z.to_nat q)%nat.
  rewrite Z2Nat.id by exact Hq. nia.
Qed.

(** ** The stride (C2) *)

(** C2, as the code has it.  For every start, max and duration with
    max >= start and duration >= 5, and with max - start and
    floor(duration / 5) below 2^53 so that their float quotient keeps the
    ceiling of the exact one, [calculate_ramp_up_step] returns the ceiling of
    (max - start) / totalSteps, where totalSteps = floor(duration / 5) is at
    least 1 because the duration is at least 5 (no minimum is applied to
    it); the stride is at least 1 exactly when max > start. *)
Theorem stride_is_ceiling (s m d : Z) :
  s <= m -> 5 <= d ->
  m - s < 2 ^ 53 -> d / 5 < 2 ^ 53 ->
  exists stride,
    calculate_ramp_up_step s m d = Ok stride /\
    1 <= d / 5 /\
    (stride - 1) * (d / 5) < m - s <= stride * (d / 5) /\
    stride = spec_stride s m d /\
    (1 <= stride <-> s < m).
Proof.
  intros Hsm Hd Hrange Hsteps.
  pose proof (total_steps_pos d Hd) as Hts.
  destruct (ceil_div_pos (m - s) (d / 5) ltac:(lia) ltac:(lia))
    as [k [Hk Hb]].
  exists k. unfold calculate_ramp_up_step. rewrite Hk. simpl.
  split; [reflexivity |]. split; [exact Hts |]. split; [exact Hb |].
  split.
  - unfold spec_stride, spec_total_steps.
    rewrite Z.max_r by lia.
    rewrite ceil_div_exact in Hk by lia.
    injection Hk as <-. reflexivity.
  - split; intros H; nia.
Qed.

Lemma stride_is_ceiling_witness :
  1 <= 10 /\ 5 <= 10 /\ 10 - 1 < 2 ^ 53 /\ 10 / 5 < 2 ^ 53 /\
  exists stride,
    calculate_ramp_up_step 1 10 10 = Ok stride /\
    1 <= 10 / 5 /\
    (stride - 1) * (10 / 5) < 10 - 1 <= stride * (10 / 5) /\
    stride = spec_stride 1 10 10 /\
    (1 <= stride <-> 1 < 10).
Proof.
  split; [lia |]. split; [lia |].
  split; [reflexivity |]. split; [reflexivity |].
  apply (stride_is_ceiling 1 10 10); [lia | lia | reflexivity | reflexivity].
Defined.

(** C2, as the specification states it, fails: with a positive duration
    below 5 the number of steps is 0, not 1, and the division raises where
    the specification's stride is 9; with max = start the stride is 0. *)
Lemma stride_minimum_counterexample :
  (1 <= 10 /\ 0 < 3 /\
   calculate_ramp_up_step 1 10 3 = Raise ZeroDivisionError /\
   spec_stride 1 10 3 = 9) /\
  (5 <= 5 /\ 0 < 10 /\ calculate_ramp_up_step 5 5 10 = Ok 0).
Proof. repeat split; try lia; reflexivity. Qed.

(** ** The levels of the ramp (C1) *)

(** C1, as the code has it.  For every configuration with a positive start,
    max > start and duration >= 5, and with max - start and
    floor(duration / 5) below 2^53 so that the stride is the exact ceiling,
    the levels of the step loop are strictly increasing, the first one is
    the start, and the last one is the greatest level start + k * stride
    that does not exceed max: it is at most max, and less than one stride
    below it. *)
Theorem plan_increasing_within_max (s m d : Z) :
  0 < s -> s < m -> 5 <= d ->
  m - s < 2 ^ 53 -> d / 5 < 2 ^ 53 ->
  exists stride rest,
    calculate_ramp_up_step s m d = Ok stride /\
    step_plan s m d = Ok (s :: rest) /\
    StronglySorted Z.lt (s :: rest) /\
    last (s :: rest) s <= m /\
    m < last (s :: rest) s + stride.
Proof.
  intros Hs Hsm Hd Hrange Hsteps.
  pose proof (total_steps_pos d Hd) as Hts.
  destruct (ceil_div_pos (m - s) (d / 5) ltac:(lia) ltac:(lia))
    as [stride [Hk Hb]].
  assert (Hcalc : calculate_ramp_up_step s m d = Ok stride)
    by (unfold calculate_ramp_up_step; rewrite Hk; reflexivity).
  assert (Hstride : 0 < stride) by nia.
  destruct (py_range_up s (m + 1) stride Hstride ltac:(lia))
    as [rest [Hrg [Hsorted [Hlast Hreach]]]].
  exists stride, rest.
  unfold step_plan. rewrite Hcalc. cbn [bind].
  repeat split; try assumption; lia.
Qed.

Lemma plan_increasing_within_max_witness :
  0 < 1 /\ 1 < 10 /\ 5 <= 10 /\ 10 - 1 < 2 ^ 53 /\ 10 / 5 < 2 ^ 53 /\
  exists stride rest,
    calculate_ramp_up_step 1 10 10 = Ok stride /\
    step_plan 1 10 10 = Ok (1 :: rest) /\
    StronglySorted Z.lt (1 :: rest) /\
    last (1 :: rest) 1 <= 10 /\
    10 < last (1 :: rest) 1 + stride.
Proof.
  split; [lia |]. split; [lia |]. split; [lia |].
  split; [reflexivity |]. split; [reflexivity |].
  apply (plan_increasing_within_max 1 10 10);
    [lia | lia | lia | reflexivity | reflexivity].
Defined.

(** C1, as the specification states it, fails: start 1, max 10 and 10
    seconds are a valid configuration, the levels are 1 and 6, and the last
    one is below max. *)
Lemma plan_reaches_max_counterexample :
  valid_config 1 10 10 /\
  step_plan 1 10 10 = Ok [1; 6] /\
  ~ (10 <= last [1; 6] 0).
Proof.
  split; [unfold valid_config; lia |].
  split; [reflexivity |]. simpl. lia.
Qed.

(** ** Configurations that the specification calls invalid (C4) *)

Lemma step_plan_short s m d :
  0 <= d < 5 -> step_plan s m d = Raise ZeroDivisionError.
Proof.
  intros H. unfold step_plan.
  rewrite (calculate_ramp_up_step_short s m d H). reflexivity.
Qed.

Lemma step_plan_negative_duration s m d :
  d < 0 -> Z.abs (m - s) < 2 ^ 53 -> - 2 ^ 53 < d / 5 ->
  step_plan s m d = Raise ValueError \/ step_plan s m d = Ok [].
Proof.
  intros Hd Hrange Hsteps.
  pose proof (total_steps_neg d Hd) as Hts.
  destruct (ceil_div_neg (m - s) (d / 5) ltac:(lia) Hrange) as [k [Hk Hb]].
  unfold step_plan, calculate_ramp_up_step. rewrite Hk. simpl.
  destruct (Z.lt_trichotomy k 0) as [Hneg | [Hz | Hpos]].
  - right. apply py_range_empty; [lia |].
    apply range_len_empty_down; [exact Hneg | nia].
  - left. subst k. reflexivity.
  - right. apply py_range_empty; [lia |].
    apply range_len_empty_up; [exact Hpos | nia].
Qed.

(** C4, as the code has it.  No configuration is checked.  For every
    configuration with a non-positive duration, or with max < start and a
    duration below 5, and with max - start and floor(duration / 5) below
    2^53 in absolute value so that the stride is the exact ceiling, no step
    is issued and the run ends at the time it began: a duration from 0 to 4
    stops it with a division by zero in [calculate_ramp_up_step], a negative
    one either stops it with the zero-stride error of [range] or leaves no
    level to run, and the report has empty series. *)
Theorem invalid_duration_runs_no_step (s m d : Z) (fuel : nat) (srv : server)
    (now : Z) :
  d <= 0 \/ (m < s /\ d < 5) ->
  Z.abs (m - s) < 2 ^ 53 -> Z.abs (d / 5) < 2 ^ 53 ->
  (0 <= d < 5 /\
   step_plan s m d = Raise ZeroDivisionError /\
   main fuel srv now s m d = Some (Raise ZeroDivisionError, now)) \/
  (d < 0 /\
   ((step_plan s m d = Raise ValueError /\
     main fuel srv now s m d = Some (Raise ValueError, now)) \/
    (step_plan s m d = Ok [] /\
     main fuel srv now s m d = Some (Ok empty_plots, now)))).
Proof.
  intros H Hrange Hsteps. unfold main.
  destruct (Z.lt_ge_cases d 0) as [Hneg | Hnonneg].
  - right. split; [exact Hneg |].
    destruct (step_plan_negative_duration s m d Hneg Hrange ltac:(lia))
      as [-> | ->].
    + left. split; reflexivity.
    + right. split; reflexivity.
  - left. assert (Hd : 0 <= d < 5) by lia.
    split; [exact Hd |].
    rewrite (step_plan_short s m d Hd). split; reflexivity.
Qed.

Lemma invalid_duration_runs_no_step_witness :
  (- 7 <= 0 \/ (1 < 10 /\ - 7 < 5)) /\
  Z.abs (1 - 10) < 2 ^ 53 /\ Z.abs (- 7 / 5) < 2 ^ 53 /\
  ((0 <= - 7 < 5 /\
    step_plan 10 1 (- 7) = Raise ZeroDivisionError /\
    main 1 steady_server 0 10 1 (- 7) = Some (Raise ZeroDivisionError, 0)) \/
   (- 7 < 0 /\
    ((step_plan 10 1 (- 7) = Raise ValueError /\
      main 1 steady_server 0 10 1 (- 7) = Some (Raise ValueError, 0)) \/
     (step_plan 10 1 (- 7) = Ok [] /\
      main 1 steady_server 0 10 1 (- 7) = Some (Ok empty_plots, 0))))).
Proof.
  split; [left; lia |]. split; [reflexivity |]. split; [reflexivity |].
  apply (invalid_duration_runs_no_step 10 1 (- 7) 1 steady_server 0);
    [left; lia | reflexivity | reflexivity].
Defined.

(** C4, as the specification states it, fails: with max 0 below start 10 and
    5 seconds nothing is rejected, and the scheduler runs a step at level
    10. *)
Lemma invalid_range_counterexample :
  0 < 10 /\ step_plan 10 0 5 = Ok [10].
Proof. split; [lia | reflexivity]. Qed.

(** ** The statistics of a fixed sample (C5) *)

(** C5, as the code has it.  On the latencies 10, 20, 30, 40 and 100 ms and
    the 5-second window, the mean is 40, the maximum 100 and the throughput
    1 request per second; the 95th percentile, which numpy interpolates in
    doubles between the ranks 3 and 4 of the sorted sample as
    100 - 60 * (1 - 0.7999999999999998), is the double next below 88,
    88 - 2^-46 (printed 87.99999999999999); the interpolation without
    rounding gives 88. *)
Theorem fixed_sample_summary :
  exists mean p95 mx thr exact_p95,
    statistics_mean_f64 sample = Ok mean /\ (mean == 40)%Q /\
    np_percentile_f64 sample 95 = Ok (Some p95) /\
    (p95 == 88 - (1 # 70368744177664))%Q /\
    py_max sample = Ok mx /\ (mx == 100)%Q /\
    throughput_f64 sample 5 = Ok thr /\ (thr == 1)%Q /\
    np_percentile sample 95 = Ok exact_p95 /\ (exact_p95 == 88)%Q.
Proof.
  do 5 eexists.
  split; [vm_compute; reflexivity |]. split; [reflexivity |].
  split; [vm_compute; reflexivity |]. split; [reflexivity |].
  split; [vm_compute; reflexivity |]. split; [reflexivity |].
  split; [vm_compute; reflexivity |]. split; [reflexivity |].
  split; [vm_compute; reflexivity | reflexivity].
Qed.

(** C5, as the specification states it, fails: the 95th percentile that the
    code computes on the sample is not 88. *)
Lemma fixed_sample_p95_counterexample :
  exists p95,
    np_percentile_f64 sample 95 = Ok (Some p95) /\ ~ (p95 == 88)%Q.
Proof.
  eexists. split; [vm_compute; reflexivity |].
  intros H. vm_compute in H. discriminate H.
Qed.

(** ** Results and lists *)

Lemma bind_ok {A B : Type} (r : result A) (k : A -> result B) (b : B) :
  bind r k = Ok b -> exists a, r = Ok a /\ k a = Ok b.
Proof.
  destruct r as [a | e]; simpl; intros H; [| discriminate].
  exists a. split; [reflexivity | exact H].
Qed.

Lemma mapM_nth_error {A B : Type} (f : A -> result B) (l : list A)
    (r : list B) (k : nat) (a : A) :
  mapM f l = Ok r -> nth_error l k = Some a ->
  exists b, f a = Ok b /\ nth_error r k = Some b.
Proof.
  revert r k. induction l as [| x l IH]; intros r k Hm Hn.
  - destruct k; discriminate.
  - simpl in Hm.
    apply bind_ok in Hm. destruct Hm as [b [Hb Hm]].
    apply bind_ok in Hm. destruct Hm as [bs [Hbs Hm]].
    injection Hm as <-.
    destruct k as [| k].
    + injection Hn as ->. exists b. split; [exact Hb | reflexivity].
    + simpl in Hn. simpl. apply (IH bs k Hbs Hn).
Qed.

(** ** Steps without samples (C6) *)

Lemma record_step_empty (n : Z) (st : series) : record_step n [] st = Ok st.
Proof. reflexivity. Qed.

Lemma record_steps_series (steps : list (Z * list Q)) (st : series) :
  exists st' means,
    record_steps steps st = Ok st' /\
    mapM statistics_mean (map snd (filter has_samples steps)) = Ok means /\
    concurrent_users st'
    = concurrent_users st ++ map fst (filter has_samples steps) /\
    average_response_times st' = average_response_times st ++ means /\
    all_process_times st'
    = all_process_times st ++ map snd (filter has_samples steps).
Proof.
  revert st. induction steps as [| [n times] rest IH]; intros st.
  - exists st, []. simpl. rewrite !app_nil_r. repeat split; reflexivity.
  - destruct times as [| x xs].
    + destruct (IH st) as [st' [means H]].
      exists st', means. exact H.
    + set (times := x :: xs).
      set (st1 := {| average_response_times :=
                       average_response_times st
                       ++ [Qsum times / inject_Z (Z.of_nat (length times))]%Q;
                     concurrent_users := concurrent_users st ++ [n];
                     all_process_times := all_process_times st ++ [times] |}).
      destruct (IH st1) as [st' [means [Hrec [Hmeans [Hu [Ha Hall]]]]]].
      exists st',
        ((Qsum times / inject_Z (Z.of_nat (length times)))%Q :: means).
      split; [exact Hrec |].
      split.
      { change (filter has_samples ((n, times) :: rest))
          with ((n, times) :: filter has_samples rest).
        rewrite map_cons. cbn [mapM snd]. rewrite Hmeans. reflexivity. }
      change (filter has_samples ((n, times) :: rest))
        with ((n, times) :: filter has_samples rest).
      rewrite !map_cons. cbn [fst snd].
      rewrite Hu, Ha, Hall. unfold st1. cbn [concurrent_users
        average_response_times all_process_times].
      rewrite <- !app_assoc. repeat split; reflexivity.
Qed.

(** C6.  A step whose latency list is empty leaves the series as they were:
    after any sequence of steps the recorded levels, means and raw latency
    sets are exactly those of the steps with samples, in order, each mean
    being the mean of a non-empty list; an empty step adds no entry, so none
    with a zero or undefined value. *)
Theorem empty_steps_leave_no_entry (steps : list (Z * list Q)) (st : series) :
  exists st' means,
    record_steps steps st = Ok st' /\
    mapM statistics_mean (map snd (filter has_samples steps)) = Ok means /\
    concurrent_users st'
    = concurrent_users st ++ map fst (filter has_samples steps) /\
    average_response_times st' = average_response_times st ++ means /\
    all_process_times st'
    = all_process_times st ++ map snd (filter has_samples steps) /\
    Forall (fun times => times <> []) (map snd (filter has_samples steps)) /\
    (forall n before after,
        steps = before ++ (n, []) :: after ->
        record_steps (before ++ after) st = Ok st').
Proof.
  destruct (record_steps_series steps st)
    as [st' [means [Hrec [Hmeans [Hu [Ha Hall]]]]]].
  exists st', means.
  repeat (split; [assumption |]).
  split.
  - apply Forall_forall. intros times Hin.
    apply in_map_iff in Hin. destruct Hin as [[n t] [<- Hin]].
    apply filter_In in Hin. destruct Hin as [_ Hs].
    unfold has_samples in Hs. simpl in *.
    destruct t; [discriminate | discriminate].
  - intros n before after ->.
    rewrite <- Hrec. clear. revert st.
    induction before as [| [n' t'] before IH]; intros st.
    + reflexivity.
    + simpl. destruct (record_step n' t' st) as [st1 | e]; simpl.
      * apply IH.
      * reflexivity.
Qed.

Lemma empty_steps_leave_no_entry_witness :
  exists st' means,
    record_steps [(0, []); (3, sample); (6, [])] no_series = Ok st' /\
    mapM statistics_mean
      (map snd (filter has_samples [(0, []); (3, sample); (6, [])]))
    = Ok means /\
    concurrent_users st'
    = concurrent_users no_series
      ++ map fst (filter has_samples [(0, []); (3, sample); (6, [])]) /\
    average_response_times st'
    = average_response_times no_series ++ means /\
    all_process_times st'
    = all_process_times no_series
      ++ map snd (filter has_samples [(0, []); (3, sample); (6, [])]) /\
    Forall (fun times => times <> [])
      (map snd (filter has_samples [(0, []); (3, sample); (6, [])])) /\
    (forall n before after,
        [(0, []); (3, sample); (6, [])] = before ++ (n, []) :: after ->
        record_steps (before ++ after) no_series = Ok st').
Proof.
  apply (empty_steps_leave_no_entry [(0, []); (3, sample); (6, [])]
           no_series).
Defined.


(** ** The rows of the report *)

(** Levels and latency lists recorded side by side pair up again. *)
Lemma levels_zip_samples (steps : list (Z * list Q)) :
  combine (map fst steps) (map snd steps) = steps.
Proof.
  induction steps as [| [level times] rest IH]; [reflexivity |].
  cbn [map combine fst snd]. f_equal. exact IH.
Qed.

(** A row of the report: the statistics of the latency list recorded at
    that row, and the list itself, as it was recorded. *)
Lemma report_row (steps : list (Z * list Q)) (d : Z) (st : series)
    (p : plots) (k : nat) (times : list Q) :
  record_steps steps no_series = Ok st ->
  save_plots_to_html (concurrent_users st) (average_response_times st)
    (all_process_times st) d = Ok p ->
  nth_error (all_process_times st) k = Some times ->
  exists mean p95 mx thr level,
    statistics_mean times = Ok mean /\
    np_percentile times 95 = Ok p95 /\
    py_max times = Ok mx /\
    throughput times d = Ok thr /\
    nth_error (y_average p) k = Some mean /\
    nth_error (y_percentiles p) k = Some p95 /\
    nth_error (y_max_times p) k = Some mx /\
    nth_error (y_throughputs p) k = Some thr /\
    nth_error (histograms p) k = Some (level, times).
Proof.
  intros Hrec Hplots Hk.
  destruct (record_steps_series steps no_series)
    as [st0 [means [Hrec0 [Hmeans [Hu [Ha Hall]]]]]].
  rewrite Hrec in Hrec0. injection Hrec0 as <-.
  simpl in Hu, Ha, Hall.
  assert (Hhist : exists level,
             nth_error (combine (concurrent_users st) (all_process_times st))
                       k = Some (level, times)).
  { rewrite Hu, Hall, levels_zip_samples.
    rewrite Hall, nth_error_map in Hk.
    destruct (nth_error (filter has_samples steps) k) as [[level t] |];
      [| discriminate].
    injection Hk as ->. exists level. reflexivity. }
  destruct Hhist as [level Hhist].
  rewrite <- Hall in Hmeans. rewrite <- Ha in Hmeans.
  unfold save_plots_to_html in Hplots.
  apply bind_ok in Hplots. destruct Hplots as [percs [Hp Hplots]].
  apply bind_ok in Hplots. destruct Hplots as [maxs [Hm Hplots]].
  apply bind_ok in Hplots. destruct Hplots as [thrs [Ht Hplots]].
  injection Hplots as <-. cbn [y_average y_percentiles y_max_times
    y_throughputs histograms].
  destruct (mapM_nth_error _ _ _ _ _ Hmeans Hk) as [mean [H1 H1']].
  destruct (mapM_nth_error _ _ _ _ _ Hp Hk) as [p95 [H2 H2']].
  destruct (mapM_nth_error _ _ _ _ _ Hm Hk) as [mx [H3 H3']].
  destruct (mapM_nth_error _ _ _ _ _ Ht Hk) as [thr [H4 H4']].
  exists mean, p95, mx, thr, level. repeat split; assumption.
Qed.

(** ** Tasks of a wave *)

Lemma window_check (start_time now duration : Z) :
  Qltb (Qmake (now - start_time) 1000000000) (inject_Z duration)
  = (now - start_time <? window_ns duration).
Proof.
  unfold Qltb, Qle_bool, window_ns. simpl.
  destruct (Z.leb_spec (duration * 1000000000) ((now - start_time) * 1));
    destruct (Z.ltb_spec (now - start_time) (duration * 1000000000));
    simpl; try reflexivity; lia.
Qed.

(** Case analysis on the test at the head of the loop. *)
Ltac window_cases H :=
  rewrite window_check;
  match goal with
  | |- context [?a <? window_ns ?d] =>
    destruct (Z.ltb_spec a (window_ns d)) as [H | H]
  end.

Section Gather.

Variable now : Z.

Implicit Types tasks : list (result Q * Z).

Lemma first_raise_in tasks e t :
  first_raise tasks = Some (e, t) -> In (Raise e, t) tasks.
Proof.
  revert e t. induction tasks as [| [[x | e1] t1] rest IH]; intros e t H.
  - discriminate.
  - right. apply IH. exact H.
  - simpl in H. destruct (first_raise rest) as [[e2 t2] |].
    + destruct (t2 <? t1).
      * right. apply IH. exact H.
      * injection H as <- <-. left. reflexivity.
    + injection H as <- <-. left. reflexivity.
Qed.

Lemma first_raise_none_inv tasks e t :
  first_raise tasks = None -> ~ In (Raise e, t) tasks.
Proof.
  induction tasks as [| [[x | e1] t1] rest IH]; intros H Hin.
  - destruct Hin.
  - destruct Hin as [Heq | Hin]; [discriminate | exact (IH H Hin)].
  - simpl in H. destruct (first_raise rest) as [[e2 t2] |].
    + destruct (t2 <? t1); discriminate.
    + discriminate.
Qed.

Lemma first_raise_least tasks e t e' t' :
  first_raise tasks = Some (e, t) -> In (Raise e', t') tasks -> t <= t'.
Proof.
  revert e t.
  induction tasks as [| [[x | e1] t1] rest IH]; intros e t H Hin.
  - destruct Hin.
  - destruct Hin as [Heq | Hin]; [discriminate | exact (IH _ _ H Hin)].
  - simpl in H. destruct (first_raise rest) as [[e2 t2] |] eqn:Hrest.
    + destruct (Z.ltb_spec t2 t1) as [Hlt | Hge]; injection H as <- <-.
      * destruct Hin as [Heq | Hin].
        -- injection Heq as <- <-. lia.
        -- exact (IH _ _ eq_refl Hin).
      * destruct Hin as [Heq | Hin].
        -- injection Heq as <- <-. lia.
        -- specialize (IH _ _ eq_refl Hin). lia.
    + injection H as <- <-. destruct Hin as [Heq | Hin].
      * injection Heq as <- <-. lia.
      * destruct (first_raise_none_inv rest e' t' Hrest Hin).
Qed.

Lemma first_raise_some tasks e t :
  In (Raise e, t) tasks -> first_raise tasks <> None.
Proof.
  intros Hin H. exact (first_raise_none_inv tasks e t H Hin).
Qed.

Lemma first_raise_none tasks :
  (forall task, In task tasks -> exists x, fst task = Ok x) ->
  first_raise tasks = None /\ length (returned tasks) = length tasks.
Proof.
  induction tasks as [| [[x | e] t] rest IH]; intros H.
  - split; reflexivity.
  - destruct IH as [IH1 IH2].
    { intros task Hin. apply H. right. exact Hin. }
    simpl. split; [exact IH1 | congruence].
  - destruct (H (Raise e, t)) as [x Hx]; [left; reflexivity |].
    discriminate.
Qed.

Lemma finish_time_bounds tasks :
  now <= finish_time now tasks /\
  (forall task, In task tasks -> snd task <= finish_time now tasks).
Proof.
  induction tasks as [| task rest [IH1 IH2]]; simpl.
  - split; [lia | intros task []].
  - split; [lia |].
    intros task' [<- | Hin]; [lia |].
    specialize (IH2 task' Hin). lia.
Qed.

End Gather.

(** ** One wave (C8) *)

Section Wave.

Variable srv : server.
Variables now n : Z.

Lemma send_request_response i d :
  srv now i = Response d ->
  send_request srv now i = (Ok (Qmake (Z.pos d) 1000000), now + Z.pos d).
Proof.
  intros H. unfold send_request. rewrite H.
  replace (now + Z.pos d - now) with (Z.pos d) by lia. reflexivity.
Qed.

Lemma send_request_failure i d :
  srv now i = Failure d ->
  send_request srv now i = (Raise RequestError, now + Z.pos d).
Proof. intros H. unfold send_request. rewrite H. reflexivity. Qed.

Lemma send_request_raises i e t :
  send_request srv now i = (Raise e, t) ->
  e = RequestError /\ exists d, srv now i = Failure d /\ t = now + Z.pos d.
Proof.
  unfold send_request. destruct (srv now i) as [d | d]; intros H.
  - discriminate.
  - injection H as <- <-. split; [reflexivity |].
    exists d. split; reflexivity.
Qed.

Lemma wave_tasks_length : length (wave_tasks srv now n) = Z.to_nat n.
Proof. unfold wave_tasks. rewrite length_map, length_seq. reflexivity. Qed.

Lemma wave_tasks_in task :
  In task (wave_tasks srv now n) <->
  exists i, (i < Z.to_nat n)%nat /\ send_request srv now i = task.
Proof.
  unfold wave_tasks. rewrite in_map_iff. split.
  - intros [i [H Hin]]. apply in_seq in Hin. exists i. split; [lia | exact H].
  - intros [i [Hi H]]. exists i. split; [exact H |]. apply in_seq. lia.
Qed.

Lemma wave_all_respond :
  responds srv now n ->
  exists response_times,
    wave srv now n
    = (Ok response_times, finish_time now (wave_tasks srv now n)) /\
    length response_times = Z.to_nat n /\
    (forall i, (i < Z.to_nat n)%nat ->
       snd (send_request srv now i)
       <= finish_time now (wave_tasks srv now n)).
Proof.
  intros Hall.
  destruct (first_raise_none (wave_tasks srv now n)) as [Hnone Hlen].
  { intros task Hin. apply wave_tasks_in in Hin.
    destruct Hin as [i [Hi <-]]. destruct (Hall i Hi) as [d Hd].
    rewrite (send_request_response _ _ Hd). eexists. reflexivity. }
  exists (returned (wave_tasks srv now n)).
  unfold wave, gather. rewrite Hnone.
  split; [reflexivity |].
  split; [rewrite Hlen; apply wave_tasks_length |].
  intros i Hi.
  apply (proj2 (finish_time_bounds now (wave_tasks srv now n))).
  apply wave_tasks_in. exists i. split; [exact Hi | reflexivity].
Qed.

Lemma wave_some_fail :
  fails srv now n ->
  exists i d,
    (i < Z.to_nat n)%nat /\ srv now i = Failure d /\
    wave srv now n = (Raise RequestError, now + Z.pos d) /\
    (forall j d', (j < Z.to_nat n)%nat -> srv now j = Failure d' ->
       (d <= d')%positive).
Proof.
  intros [i0 [d0 [Hi0 Hd0]]].
  assert (Hin0 : In (Raise RequestError, now + Z.pos d0)
                    (wave_tasks srv now n)).
  { apply wave_tasks_in. exists i0.
    split; [exact Hi0 | apply send_request_failure; exact Hd0]. }
  destruct (first_raise (wave_tasks srv now n)) as [[e t] |] eqn:Hfr;
    [| destruct (first_raise_some _ _ _ Hin0 Hfr)].
  pose proof (first_raise_in _ _ _ Hfr) as Hin.
  apply wave_tasks_in in Hin. destruct Hin as [i [Hi Hsend]].
  apply send_request_raises in Hsend. destruct Hsend as [-> [d [Hd ->]]].
  exists i, d. split; [exact Hi |]. split; [exact Hd |].
  split; [unfold wave, gather; rewrite Hfr; reflexivity |].
  intros j d' Hj Hd'.
  assert (H : now + Z.pos d <= now + Z.pos d').
  { apply (first_raise_least _ _ _ RequestError _ Hfr).
    apply wave_tasks_in.
    exists j. split; [exact Hj | apply send_request_failure; exact Hd']. }
  lia.
Qed.

Lemma wave_takes_time :
  1 <= n -> responds srv now n ->
  now < finish_time now (wave_tasks srv now n).
Proof.
  intros Hn Hall.
  destruct (Hall 0%nat ltac:(lia)) as [d Hd].
  assert (Hin : In (Ok (Qmake (Z.pos d) 1000000), now + Z.pos d)
                   (wave_tasks srv now n)).
  { apply wave_tasks_in. exists 0%nat.
    split; [lia | apply send_request_response; exact Hd]. }
  apply (proj2 (finish_time_bounds now (wave_tasks srv now n))) in Hin.
  simpl in Hin. lia.
Qed.

(** C8, as the code has it.  For every concurrency level N a wave launches
    exactly N request executors.  When every one of them gets a response,
    the wave returns a latency list of length exactly N, at the time the
    last executor completes, so after each of them.  When one of them fails,
    the wave returns no list: it raises the exception of the earliest
    failure, at the time of that failure. *)
Theorem wave_returns_all_or_raises :
  length (wave_tasks srv now n) = Z.to_nat n /\
  (responds srv now n ->
   exists response_times t_end,
     wave srv now n = (Ok response_times, t_end) /\
     length response_times = Z.to_nat n /\
     (forall i, (i < Z.to_nat n)%nat ->
        snd (send_request srv now i) <= t_end)) /\
  (fails srv now n ->
   exists i d,
     (i < Z.to_nat n)%nat /\ srv now i = Failure d /\
     wave srv now n = (Raise RequestError, now + Z.pos d) /\
     (forall j d', (j < Z.to_nat n)%nat -> srv now j = Failure d' ->
        (d <= d')%positive)).
Proof.
  split; [apply wave_tasks_length |]. split.
  - intros Hall.
    destruct (wave_all_respond Hall) as [rts [Hw [Hlen Hdone]]].
    exists rts, (finish_time now (wave_tasks srv now n)).
    repeat split; assumption.
  - apply wave_some_fail.
Qed.

End Wave.

Lemma steady_server_responds now n : responds steady_server now n.
Proof. intros i _. eexists. reflexivity. Qed.


Lemma flaky_server_fails now : fails flaky_server now 3.
Proof. exists 1%nat, 3%positive. split; [simpl; lia | reflexivity]. Qed.

Lemma wave_returns_all_or_raises_witness :
  (exists response_times t_end,
     wave steady_server 0 3 = (Ok response_times, t_end) /\
     length response_times = Z.to_nat 3 /\
     (forall i, (i < Z.to_nat 3)%nat ->
        snd (send_request steady_server 0 i) <= t_end)) /\
  (exists i d,
     (i < Z.to_nat 3)%nat /\ flaky_server 0 i = Failure d /\
     wave flaky_server 0 3 = (Raise RequestError, 0 + Z.pos d) /\
     (forall j d', (j < Z.to_nat 3)%nat -> flaky_server 0 j = Failure d' ->
        (d <= d')%positive)).
Proof.
  split.
  - apply (proj1 (proj2 (wave_returns_all_or_raises steady_server 0 3))).
    apply steady_server_responds.
  - apply (proj2 (proj2 (wave_returns_all_or_raises flaky_server 0 3))).
    apply flaky_server_fails.
Defined.

(** C8, as the specification states it, fails: of the three requests of a
    wave the second fails after 3 ns; the wave returns no list of three
    entries but raises, at time 3, while the first request is in flight
    until time 5. *)
Lemma wave_length_counterexample :
  wave flaky_server 0 3 = (Raise RequestError, 3) /\
  send_request flaky_server 0 0 = (Ok (Qmake 5 1000000), 5) /\
  ~ (snd (send_request flaky_server 0 0) <= snd (wave flaky_server 0 3)).
Proof.
  split; [reflexivity |]. split; [reflexivity |]. simpl. lia.
Qed.

(** ** The step runner (C3, C7, C10) *)

Section StepRunner.

Variable srv : server.
Variables n duration start : Z.

Lemma ramp_up_loop_closed fuel now acc :
  ~ (now - start < window_ns duration) ->
  ramp_up_loop (S fuel) srv n duration start now acc = Some (Ok acc, now).
Proof.
  intros H. simpl. window_cases Hw; [lia | reflexivity].
Qed.

Lemma ramp_up_loop_wave fuel now acc rts now' :
  now - start < window_ns duration ->
  wave srv now n = (Ok rts, now') ->
  ramp_up_loop (S fuel) srv n duration start now acc
  = ramp_up_loop fuel srv n duration start now' (acc ++ rts).
Proof.
  intros H Hwave. simpl. window_cases Hw; [| lia].
  rewrite Hwave. reflexivity.
Qed.

Lemma ramp_up_loop_raise fuel now acc e now' :
  now - start < window_ns duration ->
  wave srv now n = (Raise e, now') ->
  ramp_up_loop (S fuel) srv n duration start now acc = Some (Raise e, now').
Proof.
  intros H Hwave. simpl. window_cases Hw; [| lia].
  rewrite Hwave. reflexivity.
Qed.



End StepRunner.

(** ** The test of the window, as rounded *)

(** While fewer than 2^53 nanoseconds have elapsed, the rounded quotient
    compares with the window as the exact one does. *)
Lemma window_open_f64_exact (start_time now duration : Z) :
  0 <= now - start_time < 2 ^ 53 ->
  window_open_f64 start_time now duration
  = Ok (now - start_time <? window_ns duration).
Proof.
  intros Hsmall. unfold window_open_f64, py_true_divide.
  change (1000000000 =? 0) with false. cbv iota.
  destruct (fl_frac_small (now - start_time) 1000000000)
    as [v [-> [Hfloor _]]]; [lia | lia | reflexivity |].
  cbn [bind]. f_equal. unfold Qltb, window_ns.
  pose proof (Z.div_mod (now - start_time) 1000000000 ltac:(lia)) as Hdm.
  pose proof (Z.mod_pos_bound (now - start_time) 1000000000 ltac:(lia))
    as Hmod.
  destruct (Z.ltb_spec (now - start_time) (duration * 1000000000))
    as [Hin | Hout].
  - destruct (Qle_bool (inject_Z duration) v) eqn:E; [| reflexivity].
    apply Qle_bool_iff, Qfloor_resp_le in E.
    rewrite Qfloor_Z, Hfloor in E. lia.
  - assert (Hle : (inject_Z duration <= v)%Q).
    { apply Qle_trans with (inject_Z (Qfloor v)); [| apply Qfloor_le].
      rewrite <- Zle_Qle, Hfloor. lia. }
    apply Qle_bool_iff in Hle. rewrite Hle. reflexivity.
Qed.

Section RoundedStepRunner.

Variable srv : server.
Variables n duration start : Z.





End RoundedStepRunner.

(** C3, as the code has it.  A request that fails aborts the wave, the step
    and the run: at whatever point of a step the wave is launched, the step
    runner raises the exception of the earliest failing request at the time
    of that failure, and the latencies collected so far in the step are
    dropped with those of the wave; an exception of the step runner leaves
    the loop of [main] at once, the step is not recorded and the remaining
    levels are not run. *)
Theorem failing_request_aborts (srv : server) (n duration start now : Z)
    (acc : list Q) (fuel : nat) (rest : list Z) (st : series) :
  now - start < window_ns duration ->
  fails srv now n ->
  (exists i d,
     (i < Z.to_nat n)%nat /\ srv now i = Failure d /\
     wave srv now n = (Raise RequestError, now + Z.pos d) /\
     ramp_up_loop (S fuel) srv n duration start now acc
     = Some (Raise RequestError, now + Z.pos d) /\
     main_loop (S fuel) srv (n :: rest) st now
     = Some (Raise RequestError, now + Z.pos d)) /\
  (forall fuel' t0 e t,
     ramp_up_requests fuel' srv t0 n duration_per_step = Some (Raise e, t) ->
     main_loop fuel' srv (n :: rest) st t0 = Some (Raise e, t)).
Proof.
  intros Hin Hfail. split.
  - destruct (wave_some_fail srv now n Hfail) as [i [d [Hi [Hd [Hw _]]]]].
    exists i, d. repeat (split; [assumption |]).
    split.
    + apply ramp_up_loop_raise; assumption.
    + simpl main_loop. unfold ramp_up_requests.
      rewrite (ramp_up_loop_raise srv n duration_per_step now fuel now []
                 RequestError (now + Z.pos d));
        [reflexivity | unfold window_ns, duration_per_step; lia | exact Hw].
  - intros fuel' t0 e t H. simpl main_loop. rewrite H. reflexivity.
Qed.

Lemma failing_request_aborts_witness :
  (exists i d,
     (i < Z.to_nat 3)%nat /\ flaky_server 0 i = Failure d /\
     wave flaky_server 0 3 = (Raise RequestError, 0 + Z.pos d) /\
     ramp_up_loop 1 flaky_server 3 5 0 0 [] =
       Some (Raise RequestError, 0 + Z.pos d) /\
     main_loop 1 flaky_server [3; 6] no_series 0
     = Some (Raise RequestError, 0 + Z.pos d)) /\
  (forall fuel' t0 e t,
     ramp_up_requests fuel' flaky_server t0 3 duration_per_step
     = Some (Raise e, t) ->
     main_loop fuel' flaky_server [3; 6] no_series t0 = Some (Raise e, t)).
Proof.
  apply (failing_request_aborts flaky_server 3 5 0 0 [] 0 [6] no_series).
  - unfold window_ns. lia.
  - apply flaky_server_fails.
Defined.

(** C3, as the specification states it, fails: one of the three requests of
    the first wave fails, and the step returns no latency list and the run
    no report: both raise. *)
Lemma failing_request_counterexample :
  ramp_up_requests 10 flaky_server 0 3 5 = Some (Raise RequestError, 3) /\
  main 10 flaky_server 0 3 9 10 = Some (Raise RequestError, 3).
Proof. split; reflexivity. Qed.






(** * Further properties of the code *)

(** ** The levels of the ramp, in full *)

(** The levels of an ascending ramp, written out: the start and its
    successors by the stride, as many as fit below max + 1. *)
Lemma step_plan_ascending (s m d : Z) :
  s < m -> 5 <= d ->
  m - s < 2 ^ 53 -> d / 5 < 2 ^ 53 ->
  exists stride,
    calculate_ramp_up_step s m d = Ok stride /\
    0 < stride /\
    m - s <= stride * (d / 5) /\
    step_plan s m d
    = Ok (map (fun i => s + Z.of_nat i * stride)
              (seq 0 (S (Z.to_nat ((m - s) / stride))))).
Proof.
  intros Hsm Hd Hrange Hsteps.
  pose proof (total_steps_pos d Hd) as Hts.
  destruct (ceil_div_pos (m - s) (d / 5) ltac:(lia) ltac:(lia))
    as [stride [Hk Hb]].
  assert (Hpos : 0 < stride) by nia.
  exists stride. unfold step_plan, calculate_ramp_up_step.
  rewrite Hk. cbn [bind].
  split; [reflexivity |]. split; [exact Hpos |]. split; [lia |].
  unfold py_range. destruct (Z.eqb_spec stride 0); [lia |].
  rewrite range_len_up by lia.
  replace (m + 1 - s - 1) with (m - s) by lia.
  assert (Hq : 0 <= (m - s) / stride) by (apply Z.div_pos; lia).
  replace (Z.to_nat ((m - s) / stride + 1))
    with (S (Z.to_nat ((m - s) / stride))) by lia.
  reflexivity.
Qed.

(** X1.  With max - start and floor(duration / 5) below 2^53, the levels of
    the ramp are exactly the numbers start + k * stride, k = 0, 1, ..., that
    do not exceed max. *)
Theorem plan_levels_characterised (s m d : Z) :
  s < m -> 5 <= d ->
  m - s < 2 ^ 53 -> d / 5 < 2 ^ 53 ->
  exists stride plan,
    calculate_ramp_up_step s m d = Ok stride /\
    step_plan s m d = Ok plan /\
    forall level,
      In level plan <->
      exists k, 0 <= k /\ level = s + k * stride /\ level <= m.
Proof.
  intros Hsm Hd Hrange Hsteps.
  destruct (step_plan_ascending s m d Hsm Hd Hrange Hsteps)
    as [stride [Hcalc [Hpos [_ Hplan]]]].
  eexists stride, _. split; [exact Hcalc |]. split; [exact Hplan |].
  intros level.
  pose proof (Z.div_mod (m - s) stride ltac:(lia)) as Hdm.
  pose proof (Z.mod_pos_bound (m - s) stride Hpos) as Hmod.
  assert (Hq : 0 <= (m - s) / stride) by (apply Z.div_pos; lia).
  rewrite in_map_iff. split.
  - intros [i [<- Hi]]. apply in_seq in Hi.
    exists (Z.of_nat i). split; [lia |]. split; [reflexivity |]. nia.
  - intros [k [Hk [-> Hle]]].
    exists (Z.to_nat k). split; [rewrite Z2Nat.id by lia; reflexivity |].
    apply in_seq. nia.
Qed.

Lemma plan_levels_characterised_witness :
  exists stride plan,
    calculate_ramp_up_step 1 10 10 = Ok stride /\
    step_plan 1 10 10 = Ok plan /\
    forall level,
      In level plan <->
      exists k, 0 <= k /\ level = 1 + k * stride /\ level <= 10.
Proof.
  apply (plan_levels_characterised 1 10 10);
    [lia | lia | reflexivity | reflexivity].
Defined.

(** X2.  With max - start and floor(duration / 5) below 2^53, the ramp has
    at least one level and at most floor(duration / 5) + 1 levels. *)
Theorem plan_length_bounded (s m d : Z) :
  s < m -> 5 <= d ->
  m - s < 2 ^ 53 -> d / 5 < 2 ^ 53 ->
  exists plan,
    step_plan s m d = Ok plan /\
    1 <= Z.of_nat (length plan) <= d / 5 + 1.
Proof.
  intros Hsm Hd Hrange Hsteps.
  destruct (step_plan_ascending s m d Hsm Hd Hrange Hsteps)
    as [stride [_ [Hpos [Hb Hplan]]]].
  eexists. split; [exact Hplan |].
  rewrite length_map, length_seq.
  assert (Hq : 0 <= (m - s) / stride) by (apply Z.div_pos; lia).
  assert (Hup : (m - s) / stride <= d / 5)
    by (apply Z.div_le_upper_bound; lia).
  lia.
Qed.

Lemma plan_length_bounded_witness :
  exists plan,
    step_plan 1 100 60 = Ok plan /\
    1 <= Z.of_nat (length plan) <= 60 / 5 + 1.
Proof.
  apply (plan_length_bounded 1 100 60);
    [lia | lia | reflexivity | reflexivity].
Defined.

(** X3.  With max - start and floor(duration / 5) below 2^53, the last
    level of the ramp is max exactly when the stride divides max - start. *)
Theorem plan_ends_at_max_iff (s m d : Z) :
  s < m -> 5 <= d ->
  m - s < 2 ^ 53 -> d / 5 < 2 ^ 53 ->
  exists stride plan,
    calculate_ramp_up_step s m d = Ok stride /\
    step_plan s m d = Ok plan /\
    (last plan s = m <-> (m - s) mod stride = 0).
Proof.
  intros Hsm Hd Hrange Hsteps.
  destruct (step_plan_ascending s m d Hsm Hd Hrange Hsteps)
    as [stride [Hcalc [Hpos [_ Hplan]]]].
  eexists stride, _. split; [exact Hcalc |]. split; [exact Hplan |].
  rewrite last_affine_seq. simpl (0 + _)%nat.
  pose proof (Z.div_mod (m - s) stride ltac:(lia)) as Hdm.
  pose proof (Z.mod_pos_bound (m - s) stride Hpos) as Hmod.
  assert (Hq : 0 <= (m - s) / stride) by (apply Z.div_pos; lia).
  rewrite Z2Nat.id by exact Hq. split; intros H; nia.
Qed.

Lemma plan_ends_at_max_iff_witness :
  exists stride plan,
    calculate_ramp_up_step 1 10 45 = Ok stride /\
    step_plan 1 10 45 = Ok plan /\
    (last plan 1 = 10 <-> (10 - 1) mod stride = 0).
Proof.
  apply (plan_ends_at_max_iff 1 10 45);
    [lia | lia | reflexivity | reflexivity].
Defined.

(** X4.  When the duration allows one step per unit of concurrency,
    floor(duration / 5) >= max - start, and floor(duration / 5) is below
    2^53, the stride is 1 and the ramp runs every level from start to
    max. *)
Theorem long_ramp_runs_every_level (s m d : Z) :
  s < m -> m - s <= d / 5 -> d / 5 < 2 ^ 53 ->
  calculate_ramp_up_step s m d = Ok 1 /\
  step_plan s m d
  = Ok (map (fun i => s + Z.of_nat i) (seq 0 (Z.to_nat (m - s + 1)))) /\
  (forall level, s <= level <= m ->
     exists plan, step_plan s m d = Ok plan /\ In level plan).
Proof.
  intros Hsm Hlong Hsteps.
  assert (Hd : 5 <= d).
  { destruct (Z.lt_ge_cases d 5) as [Hlt | Hge]; [| exact Hge].
    destruct (Z.lt_ge_cases d 0) as [Hneg | Hnn].
    - pose proof (total_steps_neg d Hneg). lia.
    - rewrite (total_steps_zero d) in Hlong; lia. }
  destruct (step_plan_ascending s m d Hsm Hd ltac:(lia) Hsteps)
    as [stride [Hcalc [Hpos [_ Hplan]]]].
  destruct (ceil_div_pos (m - s) (d / 5) ltac:(lia) ltac:(lia))
    as [k [Hk Hb]].
  assert (Hstride : stride = 1).
  { unfold calculate_ramp_up_step in Hcalc. rewrite Hk in Hcalc.
    injection Hcalc as <-. nia. }
  subst stride. rewrite Z.div_1_r in Hplan.
  assert (Hlist :
    map (fun i => s + Z.of_nat i * 1) (seq 0 (S (Z.to_nat (m - s))))
    = map (fun i => s + Z.of_nat i) (seq 0 (Z.to_nat (m - s + 1)))).
  { replace (Z.to_nat (m - s + 1)) with (S (Z.to_nat (m - s))) by lia.
    apply map_ext. intros i. lia. }
  rewrite Hlist in Hplan.
  split; [exact Hcalc |]. split; [exact Hplan |].
  intros level Hlevel. eexists. split; [exact Hplan |].
  apply in_map_iff. exists (Z.to_nat (level - s)).
  split; [lia | apply in_seq; lia].
Qed.

Lemma long_ramp_runs_every_level_witness :
  calculate_ramp_up_step 1 10 45 = Ok 1 /\
  step_plan 1 10 45
  = Ok (map (fun i => 1 + Z.of_nat i) (seq 0 (Z.to_nat (10 - 1 + 1)))) /\
  (forall level, 1 <= level <= 10 ->
     exists plan, step_plan 1 10 45 = Ok plan /\ In level plan).
Proof.
  apply (long_ramp_runs_every_level 1 10 45); [lia | | reflexivity].
  vm_compute. discriminate.
Defined.

(** X5.  With a duration from 5 to 9 seconds and max - start below 2^53
    there is a single stride from start to max: the ramp has exactly the two
    levels start and max. *)
Theorem short_ramp_has_two_levels (s m d : Z) :
  s < m -> 5 <= d < 10 -> m - s < 2 ^ 53 ->
  calculate_ramp_up_step s m d = Ok (m - s) /\
  step_plan s m d = Ok [s; m].
Proof.
  intros Hsm Hd Hrange.
  assert (Hts : d / 5 = 1).
  { symmetry. apply (Z.div_unique d 5 1 (d - 5)); lia. }
  destruct (step_plan_ascending s m d Hsm ltac:(lia) Hrange ltac:(lia))
    as [stride [Hcalc [Hpos [_ Hplan]]]].
  destruct (ceil_div_pos (m - s) (d / 5) ltac:(lia) ltac:(lia))
    as [k [Hk Hb]].
  assert (Hstride : stride = m - s).
  { unfold calculate_ramp_up_step in Hcalc. rewrite Hk in Hcalc.
    injection Hcalc as <-. rewrite Hts in Hb. lia. }
  subst stride. split; [exact Hcalc |].
  rewrite Hplan, Z.div_same by lia.
  change (seq 0 (S (Z.to_nat 1))) with [0%nat; 1%nat].
  cbn [map]. f_equal. f_equal; [lia | f_equal; lia].
Qed.

Lemma short_ramp_has_two_levels_witness :
  calculate_ramp_up_step 2 50 7 = Ok (50 - 2) /\
  step_plan 2 50 7 = Ok [2; 50].
Proof.
  apply (short_ramp_has_two_levels 2 50 7); [lia | lia | reflexivity].
Defined.

(** X6.  A configuration with max below start and a duration of at least 5
    seconds, with start - max and floor(duration / 5) below 2^53, is run,
    not refused, unless the stride comes out as zero: with start - max below
    floor(duration / 5) the [range] of the loop raises; otherwise, with
    start - max at least 2, the ramp descends from start through levels that
    are all above max. *)
Theorem inverted_range_descends (s m d : Z) :
  m < s -> 5 <= d ->
  s - m < 2 ^ 53 -> d / 5 < 2 ^ 53 ->
  (s - m < d / 5 -> step_plan s m d = Raise ValueError) /\
  (d / 5 <= s - m -> 2 <= s - m ->
   exists stride rest,
     calculate_ramp_up_step s m d = Ok stride /\
     stride < 0 /\
     step_plan s m d = Ok (s :: rest) /\
     StronglySorted Z.gt (s :: rest) /\
     Forall (fun level => m < level <= s) (s :: rest)).
Proof.
  intros Hms Hd Hrange Hsteps.
  pose proof (total_steps_pos d Hd) as Hts.
  destruct (ceil_div_pos (m - s) (d / 5) ltac:(lia) ltac:(lia))
    as [k [Hk Hb]].
  unfold step_plan, calculate_ramp_up_step. rewrite Hk. cbn [bind].
  split.
  - intros Hsmall. assert (k = 0) by nia. subst k. reflexivity.
  - intros Hbig Htwo. assert (Hneg : k < 0) by nia.
    unfold py_range. destruct (Z.eqb_spec k 0); [lia |].
    unfold range_len.
    destruct (Z.ltb_spec 0 k); [lia |].
    destruct (Z.ltb_spec (m + 1) s); [| lia].
    set (q := (s - (m + 1) - 1) / - k).
    assert (Hq : 0 <= q) by (apply Z.div_pos; lia).
    pose proof (Z.div_mod (s - (m + 1) - 1) (- k) ltac:(lia)) as Hdm.
    pose proof (Z.mod_pos_bound (s - (m + 1) - 1) (- k) ltac:(lia)) as Hmod.
    fold q in Hdm.
    replace (Z.to_nat (q + 1)) with (S (Z.to_nat q)) by lia.
    exists k, (map (fun i => s + Z.of_nat i * k) (seq 1 (Z.to_nat q))).
    split; [reflexivity |]. split; [exact Hneg |].
    assert (Hhead :
      map (fun i => s + Z.of_nat i * k) (seq 0 (S (Z.to_nat q)))
      = s :: map (fun i => s + Z.of_nat i * k) (seq 1 (Z.to_nat q))).
    { simpl. f_equal. lia. }
    split; [rewrite Hhead; reflexivity |].
    rewrite <- Hhead. split.
    + generalize 0%nat as j. generalize (S (Z.to_nat q)) as len.
      induction len as [| len IH]; intros j; simpl; constructor.
      * apply IH.
      * apply Forall_forall. intros x Hx.
        apply in_map_iff in Hx. destruct Hx as [i [<- Hi]].
        apply in_seq in Hi. nia.
    + apply Forall_forall. intros x Hx.
      apply in_map_iff in Hx. destruct Hx as [i [<- Hi]].
      apply in_seq in Hi. nia.
Qed.

Lemma inverted_range_descends_witness :
  (10 - 0 < 10 / 5 -> step_plan 10 0 10 = Raise ValueError) /\
  (10 / 5 <= 10 - 0 -> 2 <= 10 - 0 ->
   exists stride rest,
     calculate_ramp_up_step 10 0 10 = Ok stride /\
     stride < 0 /\
     step_plan 10 0 10 = Ok (10 :: rest) /\
     StronglySorted Z.gt (10 :: rest) /\
     Forall (fun level => 0 < level <= 10) (10 :: rest)).
Proof.
  apply (inverted_range_descends 10 0 10);
    [lia | lia | reflexivity | reflexivity].
Defined.

(** ** The wave, entry by entry *)

Section WaveOrder.

Variable srv : server.
Variables now n : Z.


Lemma finish_time_attained (tasks : list (result Q * Z)) :
  finish_time now tasks = now \/
  exists task, In task tasks /\ snd task = finish_time now tasks.
Proof.
  induction tasks as [| task rest IH]; simpl.
  - left. reflexivity.
  - destruct (Z.max_spec (snd task) (finish_time now rest))
      as [[Hlt Hmax] | [Hge Hmax]]; rewrite Hmax.
    + destruct IH as [IH | [task' [Hin Heq]]].
      * left. exact IH.
      * right. exists task'. split; [right; exact Hin | exact Heq].
    + right. exists task. split; [left; reflexivity | reflexivity].
Qed.



End WaveOrder.


(** ** How many waves fit in a window *)

Lemma answers_within_responds srv lo hi t n :
  answers_within srv lo hi -> responds srv t n.
Proof. intros H i _. destruct (H t i) as [d [Hd _]]. exists d. exact Hd. Qed.

Section WaveCount.

Variable srv : server.
Variables n duration start : Z.
Variables lo hi : Z.

Hypothesis some_request : 1 <= n.
Hypothesis bounded : answers_within srv lo hi.

Lemma wave_duration_bounded now :
  now + lo <= finish_time now (wave_tasks srv now n) <= now + hi.
Proof.
  pose proof (answers_within_responds srv lo hi now n bounded) as Hall.
  pose proof (wave_takes_time srv now n some_request Hall) as Hlate.
  split.
  - destruct (bounded now 0%nat) as [d [Hd Hb]].
    assert (Hin : In (Ok (Qmake (Z.pos d) 1000000), now + Z.pos d)
                     (wave_tasks srv now n)).
    { apply wave_tasks_in. exists 0%nat.
      split; [lia | apply send_request_response; exact Hd]. }
    apply (proj2 (finish_time_bounds now (wave_tasks srv now n))) in Hin.
    simpl in Hin. lia.
  - destruct (finish_time_attained now (wave_tasks srv now n))
      as [Heq | [task [Hin Heq]]]; [lia |].
    apply wave_tasks_in in Hin. destruct Hin as [i [Hi Hsend]].
    destruct (bounded now i) as [d [Hd Hb]].
    rewrite (send_request_response srv now i d Hd) in Hsend.
    subst task. simpl in Heq. lia.
Qed.

Lemma ramp_up_loop_wave_count :
  forall fuel now acc,
    (Z.to_nat (start + window_ns duration - now) < fuel)%nat ->
    exists times t_end k,
      ramp_up_loop fuel srv n duration start now acc
      = Some (Ok (acc ++ times), t_end) /\
      length times = (k * Z.to_nat n)%nat /\
      (window_ns duration <= now - start -> k = 0%nat /\ t_end = now) /\
      (now - start < window_ns duration ->
       (1 <= k)%nat /\
       window_ns duration - (now - start) <= Z.of_nat k * hi /\
       (Z.of_nat k - 1) * lo < window_ns duration - (now - start) /\
       window_ns duration <= t_end - start < window_ns duration + hi).
Proof.
  induction fuel as [| fuel IH]; intros now acc Hfuel; [lia |].
  destruct (Z.lt_ge_cases (now - start) (window_ns duration)) as [Hin | Hout].
  - pose proof (answers_within_responds srv lo hi now n bounded) as Hall.
    destruct (wave_all_respond srv now n Hall) as [rts [Hw [Hlen _]]].
    pose proof (wave_duration_bounded now) as Hdur.
    pose proof (wave_takes_time srv now n some_request Hall) as Hlate.
    rewrite (ramp_up_loop_wave _ _ _ _ _ _ _ _ _ Hin Hw).
    set (now' := finish_time now (wave_tasks srv now n)) in *.
    destruct (IH now' (acc ++ rts) ltac:(lia))
      as [times [t_end [k [Hloop [Hlen' [Hdone Hmore]]]]]].
    exists (rts ++ times), t_end, (S k).
    rewrite app_assoc. split; [exact Hloop |].
    split; [rewrite length_app; simpl; lia |].
    split; [lia |]. intros _.
    destruct (Z.lt_ge_cases (now' - start) (window_ns duration))
      as [Hin' | Hout'].
    + destruct (Hmore Hin') as [Hk [Hup [Hlow Hend]]].
      split; [lia |]. split; [nia |]. split; [nia | lia].
    + destruct (Hdone Hout') as [-> ->].
      change (Z.of_nat 1) with 1.
      split; [lia |]. split; [lia |]. split; [lia | lia].
  - exists [], now, 0%nat. rewrite app_nil_r.
    split; [apply ramp_up_loop_closed; lia |].
    split; [reflexivity |]. split; [intros _; split; reflexivity | lia].
Qed.

(** With response times that keep the elapsed time below 2^53 nanoseconds,
    the rounded test of the window decides as the exact one at every
    turn. *)
Lemma ramp_up_loop_f64_agrees :
  window_ns duration + hi <= 2 ^ 53 ->
  forall fuel now acc,
    start <= now -> now - start < 2 ^ 53 ->
    ramp_up_loop_f64 fuel srv n duration start now acc
    = ramp_up_loop fuel srv n duration start now acc.
Proof.
  intros Hwin.
  induction fuel as [| fuel IH]; intros now acc Hstart Hsmall;
    [reflexivity |].
  cbn [ramp_up_loop_f64 ramp_up_loop].
  rewrite window_open_f64_exact by lia. rewrite window_check.
  destruct (Z.ltb_spec (now - start) (window_ns duration)) as [Hin | Hout];
    [| reflexivity].
  pose proof (answers_within_responds srv lo hi now n bounded) as Hall.
  destruct (wave_all_respond srv now n Hall) as [rts [Hw _]].
  pose proof (wave_duration_bounded now) as Hdur.
  pose proof (proj1 (finish_time_bounds now (wave_tasks srv now n))) as Hge.
  rewrite Hw. apply IH; lia.
Qed.

End WaveCount.

(** X8.  When every response takes between lo and hi nanoseconds and the
    window with one longest response stays within 2^53 nanoseconds, a step
    with at least one request per wave and a positive window runs k >= 1
    whole waves and returns k * num_requests latencies; k - 1 waves of the
    shortest kind do not cover the window, and the step returns with the
    window used up. *)
Theorem waves_fill_the_window (srv : server) (start n duration lo hi : Z)
    (fuel : nat) :
  1 <= n -> 0 < duration ->
  answers_within srv lo hi ->
  window_ns duration + hi <= 2 ^ 53 ->
  (enough_fuel duration <= fuel)%nat ->
  exists times t_end k,
    ramp_up_requests_f64 fuel srv start n duration
    = Some (Ok times, t_end) /\
    length times = (k * Z.to_nat n)%nat /\
    (1 <= k)%nat /\
    (Z.of_nat k - 1) * lo < window_ns duration /\
    window_ns duration <= t_end - start.
Proof.
  intros Hn Hd Hb Hwin Hfuel.
  destruct (ramp_up_loop_wave_count srv n duration start lo hi Hn Hb
              fuel start [])
    as [times [t_end [k [Hloop [Hlen [_ Hmore]]]]]].
  { unfold enough_fuel, window_ns in *. lia. }
  destruct Hmore as [Hk [Hup [Hlow Hend]]]; [unfold window_ns; lia |].
  exists times, t_end, k.
  unfold ramp_up_requests_f64.
  rewrite (ramp_up_loop_f64_agrees srv n duration start lo hi Hn Hb Hwin)
    by lia.
  split; [exact Hloop |]. split; [exact Hlen |]. split; [exact Hk |].
  split; lia.
Qed.

Lemma slow_server_answers_within :
  answers_within slow_server 7000000000 7000000000.
Proof. intros t i. eexists. split; [reflexivity | lia]. Qed.

Lemma waves_fill_the_window_witness :
  exists times t_end k,
    ramp_up_requests_f64 (enough_fuel 5) slow_server 0 4 5
    = Some (Ok times, t_end) /\
    length times = (k * Z.to_nat 4)%nat /\
    (1 <= k)%nat /\
    (Z.of_nat k - 1) * 7000000000 < window_ns 5 /\
    window_ns 5 <= t_end - 0.
Proof.
  apply (waves_fill_the_window slow_server 0 4 5 7000000000 7000000000
           (enough_fuel 5)).
  - lia.
  - lia.
  - apply slow_server_answers_within.
  - vm_compute. discriminate.
  - apply Nat.le_refl.
Defined.

(** ** The report of a run *)

Lemma mapM_total {A B : Type} (f : A -> result B) (l : list A) :
  (forall a, In a l -> exists b, f a = Ok b) ->
  exists r, mapM f l = Ok r /\ length r = length l.
Proof.
  induction l as [| a l IH]; intros H.
  - exists []. split; reflexivity.
  - destruct (H a (or_introl eq_refl)) as [b Hb].
    destruct (IH (fun a' Hin => H a' (or_intror Hin))) as [r [Hr Hlen]].
    exists (b :: r). simpl. rewrite Hb, Hr. simpl.
    split; [reflexivity | congruence].
Qed.


Lemma np_percentile_95_total (times : list Q) :
  times <> [] -> exists v, np_percentile times 95 = Ok v.
Proof.
  intros H. destruct times as [| x xs]; [contradiction |].
  eexists. unfold np_percentile.
  change (Qltb 95 0 || Qltb 100 95) with false. reflexivity.
Qed.

Lemma py_max_total (times : list Q) :
  times <> [] -> exists v, py_max times = Ok v.
Proof.
  intros H. destruct times as [| x xs]; [contradiction |].
  eexists. reflexivity.
Qed.


Lemma has_samples_nonempty (steps : list (Z * list Q)) (times : list Q) :
  In times (map snd (filter has_samples steps)) -> times <> [].
Proof.
  intros Hin. apply in_map_iff in Hin. destruct Hin as [[n t] [<- Hin]].
  apply filter_In in Hin. destruct Hin as [_ Hs].
  unfold has_samples in Hs. simpl in *. destruct t; discriminate.
Qed.




(** X10.  With a window of zero seconds the plots cannot be prepared as soon
    as one step has samples: the throughput divides by the window, and
    [save_plots_to_html] raises a division by zero. *)
Theorem zero_window_report_raises (steps : list (Z * list Q)) (st : series) :
  record_steps steps no_series = Ok st ->
  filter has_samples steps <> [] ->
  save_plots_to_html (concurrent_users st) (average_response_times st)
    (all_process_times st) 0 = Raise ZeroDivisionError.
Proof.
  intros Hrec Hsome.
  destruct (record_steps_series steps no_series)
    as [st0 [means [Hrec0 [_ [_ [_ Hall]]]]]].
  rewrite Hrec in Hrec0. injection Hrec0 as <-. simpl in Hall.
  destruct (mapM_total (fun times => np_percentile times 95)
              (all_process_times st)) as [percs [Hp _]].
  { intros times Hin. rewrite Hall in Hin.
    apply np_percentile_95_total. apply (has_samples_nonempty steps _ Hin). }
  destruct (mapM_total py_max (all_process_times st)) as [maxs [Hm _]].
  { intros times Hin. rewrite Hall in Hin.
    apply py_max_total. apply (has_samples_nonempty steps _ Hin). }
  unfold save_plots_to_html. rewrite Hp, Hm. cbn [bind].
  rewrite Hall. destruct (filter has_samples steps) as [| step rest];
    [contradiction |].
  reflexivity.
Qed.

Lemma zero_window_report_raises_witness :
  exists st,
    record_steps [(3, sample)] no_series = Ok st /\
    save_plots_to_html (concurrent_users st) (average_response_times st)
      (all_process_times st) 0 = Raise ZeroDivisionError.
Proof.
  eexists. split; [reflexivity |].
  apply (zero_window_report_raises [(3, sample)]);
    [reflexivity | discriminate].
Defined.

(** ** The statistics lie within the samples *)

From Stdlib Require Import Lqa.

Section WithinSamples.

Local Open Scope Q_scope.

Lemma Qltb_false (x y : Q) : Qltb x y = false -> y <= x.
Proof.
  unfold Qltb. intros H. apply Qle_bool_iff.
  destruct (Qle_bool y x); [reflexivity | discriminate].
Qed.

Lemma Qltb_true (x y : Q) : Qltb x y = true -> x < y.
Proof.
  unfold Qltb. intros H. apply Qnot_le_lt. intros Hle.
  apply Qle_bool_iff in Hle. rewrite Hle in H. discriminate.
Qed.

Lemma insert_sorted_in (x y : Q) (l : list Q) :
  In y (insert_sorted x l) <-> x = y \/ In y l.
Proof.
  induction l as [| z l IH]; simpl.
  - tauto.
  - destruct (Qle_bool x z); simpl; [tauto |]. rewrite IH. tauto.
Qed.

Lemma insert_sorted_length (x : Q) (l : list Q) :
  length (insert_sorted x l) = S (length l).
Proof.
  induction l as [| z l IH]; simpl; [reflexivity |].
  destruct (Qle_bool x z); simpl; [reflexivity | rewrite IH; reflexivity].
Qed.

Lemma sort_in (y : Q) (l : list Q) : In y (sort l) <-> In y l.
Proof.
  induction l as [| x l IH]; simpl; [tauto |].
  rewrite insert_sorted_in, IH. tauto.
Qed.

Lemma sort_length (l : list Q) : length (sort l) = length l.
Proof.
  induction l as [| x l IH]; simpl; [reflexivity |].
  rewrite insert_sorted_length, IH. reflexivity.
Qed.

Lemma max_fold_spec (rest : list Q) (x : Q) :
  let r := fold_left (fun m y => if Qltb m y then y else m) rest x in
  (r = x \/ In r rest) /\ x <= r /\ (forall y, In y rest -> y <= r).
Proof.
  revert x. induction rest as [| z rest IH]; intros x; simpl.
  - split; [left; reflexivity |]. split; [lra | intros y []].
  - destruct (Qltb x z) eqn:Hxz.
    + apply Qltb_true in Hxz.
      destruct (IH z) as [Hin [Hle Hall]]. simpl in Hin, Hle, Hall.
      split; [right; destruct Hin as [-> | Hin]; [left; reflexivity |
                                                  right; exact Hin] |].
      split; [lra |].
      intros y [<- | Hy]; [exact Hle | apply Hall; exact Hy].
    + apply Qltb_false in Hxz.
      destruct (IH x) as [Hin [Hle Hall]]. simpl in Hin, Hle, Hall.
      split; [destruct Hin as [-> | Hin]; [left; reflexivity |
                                           right; right; exact Hin] |].
      split; [exact Hle |].
      intros y [<- | Hy]; [lra | apply Hall; exact Hy].
Qed.

Lemma py_max_spec (times : list Q) (mx : Q) :
  py_max times = Ok mx ->
  In mx times /\ (forall x, In x times -> x <= mx).
Proof.
  destruct times as [| x rest]; [discriminate |].
  intros H. injection H as <-.
  destruct (max_fold_spec rest x) as [Hin [Hle Hall]]. simpl in *.
  split.
  - destruct Hin as [-> | Hin]; [left; reflexivity | right; exact Hin].
  - intros y [<- | Hy]; [exact Hle | apply Hall; exact Hy].
Qed.

Lemma Qsum_upper (l : list Q) (hi a : Q) :
  (forall x, In x l -> x <= hi) ->
  fold_left Qplus l a <= a + inject_Z (Z.of_nat (length l)) * hi.
Proof.
  revert a. induction l as [| x l IH]; intros a H.
  - cbn [fold_left length]. change (inject_Z (Z.of_nat 0)) with 0. lra.
  - pose proof (H x (or_introl eq_refl)) as Hhi.
    pose proof (IH (a + x) (fun y Hy => H y (or_intror Hy))) as IH1.
    cbn [fold_left length]. rewrite Nat2Z.inj_succ. unfold Z.succ.
    rewrite inject_Z_plus. change (inject_Z 1) with 1. lra.
Qed.

Lemma Qsum_lower (l : list Q) (lo a : Q) :
  (forall x, In x l -> lo <= x) ->
  a + inject_Z (Z.of_nat (length l)) * lo <= fold_left Qplus l a.
Proof.
  revert a. induction l as [| x l IH]; intros a H.
  - cbn [fold_left length]. change (inject_Z (Z.of_nat 0)) with 0. lra.
  - pose proof (H x (or_introl eq_refl)) as Hlo.
    pose proof (IH (a + x) (fun y Hy => H y (or_intror Hy))) as IH1.
    cbn [fold_left length]. rewrite Nat2Z.inj_succ. unfold Z.succ.
    rewrite inject_Z_plus. change (inject_Z 1) with 1. lra.
Qed.

Lemma statistics_mean_within (times : list Q) (mean : Q) :
  statistics_mean times = Ok mean ->
  (forall lo, (forall x, In x times -> lo <= x) -> lo <= mean) /\
  (forall hi, (forall x, In x times -> x <= hi) -> mean <= hi).
Proof.
  destruct times as [| x rest]; [discriminate |].
  intros H. injection H as <-.
  set (n := inject_Z (Z.of_nat (length (x :: rest)))).
  assert (Hn : 0 < n).
  { unfold n. change 0 with (inject_Z 0). rewrite <- Zlt_Qlt.
    simpl length. lia. }
  split.
  - intros lo Hlo.
    pose proof (Qsum_lower (x :: rest) lo 0 Hlo) as H1.
    fold (Qsum (x :: rest)) in H1. fold n in H1.
    change (lo <= Qsum (x :: rest) / n).
    apply Qle_shift_div_l; [exact Hn | lra].
  - intros hi Hhi.
    pose proof (Qsum_upper (x :: rest) hi 0 Hhi) as H1.
    fold (Qsum (x :: rest)) in H1. fold n in H1.
    change (Qsum (x :: rest) / n <= hi).
    apply Qle_shift_div_r; [exact Hn | lra].
Qed.

Lemma np_percentile_within (a : list Q) (q v : Q) :
  np_percentile a q = Ok v ->
  (forall lo, (forall x, In x a -> lo <= x) -> lo <= v) /\
  (forall hi, (forall x, In x a -> x <= hi) -> v <= hi).
Proof.
  unfold np_percentile.
  destruct (Qltb q 0) eqn:Hq0; [discriminate |].
  destruct (Qltb 100 q) eqn:Hq100; [discriminate |]. cbn [orb].
  apply Qltb_false in Hq0. apply Qltb_false in Hq100.
  destruct a as [| x rest]; [discriminate |].
  set (l := x :: rest). set (n := Z.of_nat (length l)).
  set (h := (inject_Z n - 1) * (q / 100)).
  intros H. injection H as <-.
  assert (Hn : (1 <= n)%Z) by (unfold n, l; simpl length; lia).
  assert (Hnq : 1 <= inject_Z n) by (rewrite Zle_Qle in Hn; exact Hn).
  assert (Hr : 0 <= q / 100 /\ q / 100 <= 1).
  { split; [apply Qle_shift_div_l | apply Qle_shift_div_r]; lra. }
  assert (Hh : 0 <= h /\ h <= inject_Z n - 1) by (unfold h; split; nra).
  pose proof (Qfloor_le h) as Hfl. pose proof (Qlt_floor h) as Hfu.
  rewrite inject_Z_plus in Hfu. change (inject_Z 1) with 1 in Hfu.
  assert (Hlo0 : (0 <= Qfloor h)%Z).
  { rewrite <- (Qfloor_Z 0). apply Qfloor_resp_le. exact (proj1 Hh). }
  assert (Hlo1 : (Qfloor h <= n - 1)%Z).
  { rewrite <- (Qfloor_Z (n - 1)). apply Qfloor_resp_le.
    unfold Z.sub. rewrite inject_Z_plus, inject_Z_opp.
    change (inject_Z 1) with 1. lra. }
  assert (Hin : forall i, (0 <= i <= n - 1)%Z ->
                  In (nth (Z.to_nat i) (sort l) 0) l).
  { intros i Hi. apply sort_in. apply nth_In.
    rewrite sort_length. unfold n in Hi. lia. }
  pose proof (Hin (Qfloor h) ltac:(lia)) as Hb.
  pose proof (Hin (Z.min (Qfloor h + 1) (n - 1)) ltac:(lia)) as Ha.
  set (below := nth (Z.to_nat (Qfloor h)) (sort l) 0) in *.
  set (above := nth (Z.to_nat (Z.min (Qfloor h + 1) (n - 1))) (sort l) 0) in *.
  set (g := h - inject_Z (Qfloor h)).
  assert (Hg : 0 <= g /\ g <= 1) by (unfold g; split; lra).
  split.
  - intros lo Hlo. pose proof (Hlo _ Hb). pose proof (Hlo _ Ha).
    change (lo <= below + g * (above - below)). nra.
  - intros hi Hhi. pose proof (Hhi _ Hb). pose proof (Hhi _ Ha).
    change (below + g * (above - below) <= hi). nra.
Qed.

Lemma combine_nth_error_snd {A B : Type} (l1 : list A) (l2 : list B)
    (k : nat) (a : A) (b : B) :
  nth_error (combine l1 l2) k = Some (a, b) -> nth_error l2 k = Some b.
Proof.
  revert l2 k. induction l1 as [| x l1 IH]; intros l2 k H.
  - destruct k; discriminate.
  - destruct l2 as [| y l2]; [destruct k; discriminate |].
    destruct k as [| k]; simpl in *.
    + injection H as _ <-. reflexivity.
    + apply (IH _ _ H).
Qed.

(** X11.  In every row of the report the maximum is one of the latencies of
    the step and no latency exceeds it, and the mean and the 95th
    percentile lie between any lower bound of the latencies and the
    maximum. *)
Theorem report_rows_within_samples (steps : list (Z * list Q)) (d : Z)
    (st : series) (p : plots) (k : nat) (level : Z) (times : list Q) :
  record_steps steps no_series = Ok st ->
  save_plots_to_html (concurrent_users st) (average_response_times st)
    (all_process_times st) d = Ok p ->
  nth_error (histograms p) k = Some (level, times) ->
  exists mean p95 mx,
    nth_error (y_average p) k = Some mean /\
    nth_error (y_percentiles p) k = Some p95 /\
    nth_error (y_max_times p) k = Some mx /\
    In mx times /\
    (forall x, In x times -> x <= mx) /\
    mean <= mx /\ p95 <= mx /\
    (forall lo, (forall x, In x times -> lo <= x) ->
       lo <= mean /\ lo <= p95).
Proof.
  intros Hrec Hplots Hk.
  assert (Hall : nth_error (all_process_times st) k = Some times).
  { pose proof Hplots as Hp. unfold save_plots_to_html in Hp.
    apply bind_ok in Hp. destruct Hp as [percs [_ Hp]].
    apply bind_ok in Hp. destruct Hp as [maxs [_ Hp]].
    apply bind_ok in Hp. destruct Hp as [thrs [_ Hp]].
    injection Hp as <-. cbn [histograms] in Hk.
    apply (combine_nth_error_snd _ _ _ _ _ Hk). }
  destruct (report_row steps d st p k times Hrec Hplots Hall)
    as [mean [p95 [mx [thr [level'
         [Hm [Hp [Hx [_ [A [B [C _]]]]]]]]]]]].
  destruct (py_max_spec times mx Hx) as [Hin Hmax].
  destruct (statistics_mean_within times mean Hm) as [Hmlo Hmhi].
  destruct (np_percentile_within times 95 p95 Hp) as [Hplo Hphi].
  exists mean, p95, mx.
  repeat (split; [assumption |]).
  split; [apply Hmhi; exact Hmax |].
  split; [apply Hphi; exact Hmax |].
  intros lo Hlo. split; [apply Hmlo | apply Hplo]; exact Hlo.
Qed.

End WithinSamples.

Lemma report_rows_within_samples_witness :
  exists st p,
    record_steps [(0, []); (3, sample)] no_series = Ok st /\
    save_plots_to_html (concurrent_users st) (average_response_times st)
      (all_process_times st) 5 = Ok p /\
    nth_error (histograms p) 0 = Some (3, sample) /\
    exists mean p95 mx,
      nth_error (y_average p) 0 = Some mean /\
      nth_error (y_percentiles p) 0 = Some p95 /\
      nth_error (y_max_times p) 0 = Some mx /\
      In mx sample /\
      (forall x, In x sample -> (x <= mx)%Q) /\
      (mean <= mx)%Q /\ (p95 <= mx)%Q /\
      (forall lo, (forall x, In x sample -> (lo <= x)%Q) ->
         (lo <= mean)%Q /\ (lo <= p95)%Q).
Proof.
  do 2 eexists.
  split; [reflexivity |]. split; [reflexivity |]. split; [reflexivity |].
  eapply (report_rows_within_samples [(0, []); (3, sample)] 5);
    reflexivity.
Defined.

(** ** A whole run *)

Section WholeRun.

Variable srv : server.

Hypothesis all_respond : forall t n, responds srv t n.


End WholeRun.



(** ** The title of the report *)

Module TitleProps.

Import String Ascii Title.
Local Open Scope string_scope.

Lemma append_assoc (a b c : string) : (a ++ b) ++ c = a ++ (b ++ c).
Proof. induction a as [| x a IH]; simpl; [reflexivity | rewrite IH; reflexivity]. Qed.

Lemma has_char_append (c : ascii) (a b : string) :
  has_char c (a ++ b) = has_char c a || has_char c b.
Proof.
  induction a as [| x a IH]; simpl; [reflexivity |].
  rewrite IH. apply orb_assoc.
Qed.

Lemma append_assoc_nil (a : string) : a ++ "" = a.
Proof. induction a as [| x a IH]; simpl; [reflexivity | rewrite IH; reflexivity]. Qed.

Lemma prefix_same (x : ascii) (p r : string) :
  prefix (String x p) (String x r) = prefix p r.
Proof. simpl. destruct (ascii_dec x x); [reflexivity | contradiction]. Qed.

Lemma prefix_diff (x y : ascii) (p r : string) :
  x <> y -> prefix (String x p) (String y r) = false.
Proof. intros H. simpl. destruct (ascii_dec x y); [contradiction | reflexivity]. Qed.

Lemma prefix_self (p b : string) : prefix p (p ++ b) = true.
Proof.
  induction p as [| x p IH]; simpl; [destruct b; reflexivity |].
  destruct (ascii_dec x x); [exact IH | contradiction].
Qed.

(** A match of [p] cannot run from [r] into what follows when the next
    character is foreign to [p]. *)
Lemma prefix_blocked (p r t : string) (a : ascii) :
  has_char a p = false -> prefix p r = false ->
  prefix p (r ++ String a t) = false.
Proof.
  revert r. induction p as [| x p IH]; intros r Hchar Hpre.
  - destruct r; discriminate.
  - simpl in Hchar. apply orb_false_elim in Hchar.
    destruct Hchar as [Hx Hp].
    destruct r as [| y r]; simpl in *.
    + destruct (ascii_dec x a) as [-> | _]; [| reflexivity].
      rewrite Ascii.eqb_refl in Hx. discriminate.
    + destruct (ascii_dec x y); [apply IH; assumption | reflexivity].
Qed.

Lemma occurs_cons (old : string) (c : ascii) (s : string) :
  occurs old (String c s) = false ->
  prefix old (String c s) = false /\ occurs old s = false.
Proof. simpl occurs. intros H. apply orb_false_elim in H. exact H. Qed.

Lemma replace_without_occurrence (s : string) :
  occurs ".html" s = false -> html_title s = s.
Proof.
  unfold html_title, py_replace.
  induction s as [| c s IH]; intros H; [reflexivity |].
  apply occurs_cons in H. destruct H as [Hpre Hocc].
  cbn [replace_from]. rewrite Hpre, (IH Hocc). reflexivity.
Qed.

Lemma replace_strips_first (a b : string) :
  occurs ".html" a = false ->
  html_title (a ++ ".html" ++ b) = a ++ html_title b.
Proof.
  unfold html_title, py_replace.
  induction a as [| c a IH]; intros H.
  - change ("" ++ ".html" ++ b)
      with (String "." (String "h" (String "t" (String "m" (String "l" b))))).
    cbn [replace_from].
    change (String "." (String "h" (String "t" (String "m" (String "l" b)))))
      with (".html" ++ b) at 1.
    rewrite prefix_self. reflexivity.
  - apply occurs_cons in H. destruct H as [Hpre Hocc].
    change (String c a ++ ".html" ++ b) with (String c (a ++ ".html" ++ b)).
    cbn [replace_from].
    assert (Hno : prefix ".html" (String c (a ++ ".html" ++ b)) = false).
    { destruct (ascii_dec "." c) as [<- | Hne].
      - change ".html" with (String "." "html") in Hpre |- * at 1.
        rewrite prefix_same in Hpre |- *.
        change (".html" ++ b) with (String "." ("html" ++ b)).
        apply prefix_blocked; [reflexivity | exact Hpre].
      - change ".html" with (String "." "html") at 1.
        apply prefix_diff. exact Hne. }
    rewrite Hno, (IH Hocc). reflexivity.
Qed.

Lemma no_dot_no_occurrence (s : string) :
  has_char "." s = false -> occurs ".html" s = false.
Proof.
  induction s as [| c s IH]; intros H; [reflexivity |].
  simpl in H. apply orb_false_elim in H. destruct H as [Hc Hs].
  simpl occurs. rewrite (IH Hs), orb_false_r.
  change ".html" with (String "." "html").
  destruct (ascii_dec "." c) as [<- | Hne]; [discriminate |].
  apply prefix_diff. exact Hne.
Qed.

Lemma digits_have_no_dot (d : Decimal.uint) :
  has_char "." (DecimalString.NilEmpty.string_of_uint d) = false.
Proof. induction d; simpl; [reflexivity | assumption ..]. Qed.

Lemma str_has_no_dot (n : Z) : has_char "." (str n) = false.
Proof.
  unfold str. destruct (Z.to_int n) as [d | d]; simpl.
  - destruct d; try apply digits_have_no_dot; reflexivity.
  - destruct d; try apply digits_have_no_dot; reflexivity.
Qed.

(** X13.  Without an output file, or with an empty one, the report is named
    after the three numbers of the run, and its title is that name without
    the extension. *)
Theorem default_title (s m d : Z) :
  output_file None s m d
  = "Load_Test_" ++ str s ++ "_" ++ str m ++ "_" ++ str d ++ "sec.html" /\
  output_file (Some "") s m d = output_file None s m d /\
  html_title (output_file None s m d)
  = "Load_Test_" ++ str s ++ "_" ++ str m ++ "_" ++ str d ++ "sec".
Proof.
  split; [reflexivity |]. split; [reflexivity |].
  set (stem := "Load_Test_" ++ str s ++ "_" ++ str m ++ "_" ++ str d ++ "sec").
  assert (Hname : output_file None s m d = stem ++ ".html" ++ "").
  { unfold output_file, stem.
    change "sec.html" with ("sec" ++ ".html" ++ "").
    rewrite !append_assoc. reflexivity. }
  rewrite Hname, replace_strips_first; [apply append_assoc_nil |].
  apply no_dot_no_occurrence. unfold stem.
  rewrite !has_char_append, !str_has_no_dot. reflexivity.
Qed.

(** X14.  The title is the name of the report with every ".html" removed,
    wherever it stands: a name without ".html" is its own title, and a
    first ".html" is dropped together with the later ones. *)
Theorem title_drops_every_html (a b : string) :
  occurs ".html" a = false ->
  html_title a = a /\
  html_title (a ++ ".html") = a /\
  html_title (a ++ ".html" ++ b) = a ++ html_title b.
Proof.
  intros H. split; [apply replace_without_occurrence; exact H |].
  split; [| apply replace_strips_first; exact H].
  change (a ++ ".html") with (a ++ ".html" ++ "").
  rewrite (replace_strips_first a "" H). apply append_assoc_nil.
Qed.

Lemma title_drops_every_html_witness :
  html_title "run.v2" = "run.v2" /\
  html_title ("run.v2" ++ ".html") = "run.v2" /\
  html_title ("run.v2" ++ ".html" ++ ".bak.html") = "run.v2" ++ html_title ".bak.html".
Proof. apply (title_drops_every_html "run.v2" ".bak.html"). reflexivity. Defined.

End TitleProps.

(** ** The demonstration service *)

Module ServerProps.

Import String Ascii Server.
Local Open Scope string_scope.

Section Served.

Variable busy : Q -> Q.

(** An exponent below 2^53 in absolute value converts to a float. *)
Lemma exponent_converts (n : Z) :
  (Z.abs n < 2 ^ 53)%Z -> exists v, fl (inject_Z n) = Some v.
Proof.
  intros Hn. unfold fl. change (Qnum (inject_Z n)) with n.
  change (QDen (inject_Z n)) with 1%Z.
  destruct (fl_frac_small n 1 ltac:(lia) Hn ltac:(reflexivity))
    as [v [Hv _]].
  exists v. exact Hv.
Qed.


(** X16.  Zero to a negative power, the exponent above -2^53, makes
    [calculate_power] raise a division by zero; the decorator lets the
    exception through, and writes nothing to the log. *)
Theorem zero_to_negative_power_raises (payload : PowerRequest.t) (w : world) :
  (PowerRequest.number payload == 0)%Q ->
  (- 2 ^ 53 < PowerRequest.power payload < 0)%Z ->
  exists w',
    calculate_power busy payload w = (Raise ZeroDivisionError, w') /\
    logged w' = logged w.
Proof.
  intros Hzero Hneg.
  unfold calculate_power, log_response_time, calculate_power_body, float_pow.
  destruct (exponent_converts (PowerRequest.power payload) ltac:(lia))
    as [v ->].
  apply Qeq_bool_iff in Hzero. rewrite Hzero.
  destruct (Z.ltb_spec (PowerRequest.power payload) 0); [| lia].
  eexists. split; reflexivity.
Qed.

End Served.


Lemma zero_to_negative_power_raises_witness :
  exists w',
    calculate_power (fun _ => 1 # 4)%Q
      {| PowerRequest.number := 0; PowerRequest.power := -1 |}
      {| clock := 100; logged := [] |}
    = (Raise ZeroDivisionError, w') /\
    logged w' = logged {| clock := 100; logged := [] |}.
Proof.
  apply (zero_to_negative_power_raises (fun _ => 1 # 4)%Q
           {| PowerRequest.number := 0; PowerRequest.power := -1 |}
           {| clock := 100; logged := [] |}).
  - reflexivity.
  - split; reflexivity.
Defined.

(** A square too large for a float, and an exponent too large for one, raise
    an overflow: nothing is served and nothing is logged. *)
Lemma overflow_examples :
  calculate_square (fun _ => 1 # 4)%Q
    {| SquareRequest.number := inject_Z (2 ^ 700) |}
    {| clock := 100; logged := [] |}
  = (Raise OverflowError, {| clock := (100 + (1 # 4))%Q; logged := [] |}) /\
  float_pow 1 (2 ^ 1024) = Raise OverflowError.
Proof. split; vm_compute; reflexivity. Qed.

(** The exponent is converted before zero is looked at: zero to the power
    -2^1024 raises an overflow, not a division by zero. *)
Lemma huge_negative_power_overflows :
  calculate_power (fun _ => 1 # 4)%Q
    {| PowerRequest.number := 0; PowerRequest.power := - 2 ^ 1024 |}
    {| clock := 100; logged := [] |}
  = (Raise OverflowError, {| clock := (100 + (1 # 4))%Q; logged := [] |}).
Proof. vm_compute. reflexivity. Qed.

End ServerProps.

(** ** Where the samples of a step come from *)

Section Provenance.

Variable srv : server.
Variables n duration start : Z.



End Provenance.


